(** * PubScan: dependency statistics over pubspec.yaml manifests

    A shallow embedding of the two programs of the repository:

    - [Extended]: cmd/main.go.  Resolves the most recently committed branch,
      fetches pubspec.yaml through the REST API, counts the keys of three
      manifest sections and writes a report filtered by [--min].
    - [Minimal]: the go-github based collector.  Fetches pubspec.yaml from
      the default branch and counts the keys of two sections in one flat map,
      with the number of parallel requests bounded by [--limit].

    The hosting API, the YAML/JSON/base64 decoders, net/url and the file
    system are not part of the repository; their behaviour is a field of a
    [World] record each program is run in. *)

From Stdlib Require Import ZArith Lia Ascii String.
From stdpp Require Import base gmap strings list fin_maps pretty sorting.

Open Scope Z_scope.

(** ** Go values *)

(** Go's [int] on the 64-bit targets: two's complement, wrapping. *)
Module GoInt.

Definition min_int : Z := - 2 ^ 63.
Definition max_int : Z := 2 ^ 63 - 1.

Definition wrap (z : Z) : Z := (z + 2 ^ 63) mod 2 ^ 64 - 2 ^ 63.

Definition in_range (z : Z) : Prop := min_int ≤ z ≤ max_int.

(** [x++] *)
Definition incr (z : Z) : Z := wrap (z + 1).

(** [a >= b] *)
Definition ge (a b : Z) : bool := bool_decide (b ≤ a).

End GoInt.

(** A Go [error] value is carried by its message. *)
Definition error := string.

(** A Go result pair [(T, error)]. *)
Inductive result (A : Type) : Type :=
| Ok (a : A)
| Err (e : error).
Arguments Ok {A} a.
Arguments Err {A} e.

#[local] Set Warnings "-register-all".

(** [interface{}] as produced by the YAML decoder.  The programs never look
    inside these values. *)
Inductive any : Type :=
| ANil
| AStr (s : string)
| AInt (z : Z)
| ASeq (l : list any)
| AMap (kvs : list (string * any)).

(** A Go [map[string]V]: [None] is the nil map. *)
Definition gomap (V : Type) : Type := option (gmap string V).

(** The keys visited by [for k := range m].  Go visits them in an unspecified
    order; the loops below are shown not to depend on it. *)
Definition range_keys {V} (m : gomap V) : list string :=
  match m with
  | None => []
  | Some g => (map_to_list g).*1
  end.

(** [m[k]++] on a [map[string]int]: a missing key reads as 0. *)
Definition map_incr (m : gmap string Z) (k : string) : gmap string Z :=
  <[k := GoInt.incr (default 0 (m !! k))]> m.

(** [for _, k := range ks { m[k]++ }] *)
Definition incr_all (m : gmap string Z) (ks : list string) : gmap string Z :=
  foldl map_incr m ks.

(** How often [p] occurs in [ks]. *)
Definition occ (p : string) (ks : list string) : nat :=
  length (filter (λ k, k = p) ks).

Definition b2n (b : bool) : nat := if b then 1%nat else O.

(** ** Strings *)

(** [strings.Split(s, sep)] for a one-byte separator. *)
Fixpoint strings_Split (s : string) (sep : ascii) : list string :=
  match s with
  | EmptyString => [EmptyString]
  | String c rest =>
      if decide (c = sep) then EmptyString :: strings_Split rest sep
      else match strings_Split rest sep with
           | [] => [String c EmptyString]
           | part :: parts => String c part :: parts
           end
  end.

(** [strings.HasPrefix] and [strings.TrimPrefix]. *)
Fixpoint strings_HasPrefix (s prefix : string) : bool :=
  match prefix, s with
  | EmptyString, _ => true
  | String p prefix', String c s' =>
      if decide (c = p) then strings_HasPrefix s' prefix' else false
  | String _ _, EmptyString => false
  end.

Fixpoint drop_bytes (n : nat) (s : string) : string :=
  match n, s with
  | O, _ => s
  | S n', String _ s' => drop_bytes n' s'
  | S _, EmptyString => EmptyString
  end.

Definition strings_TrimPrefix (s prefix : string) : string :=
  if strings_HasPrefix s prefix then drop_bytes (String.length prefix) s else s.

(** The number of bytes of [s] equal to [c]. *)
Fixpoint count_byte (c : ascii) (s : string) : nat :=
  match s with
  | EmptyString => O
  | String x rest => (if decide (x = c) then 1 else 0)%nat + count_byte c rest
  end.

Definition slash : ascii := "/"%char.

(** A repository line as the specification words it: exactly two
    slash-separated parts, neither of them empty. *)
Definition spec_owner_name (line : string) : Prop :=
  ∃ owner name,
    line = owner +:+ "/" +:+ name ∧ owner ≠ "" ∧ name ≠ "" ∧
    count_byte slash owner = O ∧ count_byte slash name = O.

(** ** The extended program: cmd/main.go *)
Module Extended.

(** [Branch]: the name and the author date of the branch's latest commit.
    A [time.Time] is carried by its instant on the time line, counted from
    the epoch; [t.After(u)] is [u < t]. *)
Record Branch := { Name : string; Date : Z }.

#[global] Instance Branch_eq_dec : EqDecision Branch.
Proof. solve_decision. Defined.

Definition After (t u : Z) : bool := bool_decide (u < t).

Record Pubspec := {
  Dependencies : gomap any;
  DevDependencies : gomap any;
  DependencyOverrides : gomap any
}.

(** [var ps Pubspec] *)
Definition zero_Pubspec : Pubspec :=
  {| Dependencies := None; DevDependencies := None; DependencyOverrides := None |}.

(** One value of the report: [{"count": count, "url": url}]. *)
Record Entry := { count : Z; url : string }.

Record Stats := {
  stDependencies : gmap string Entry;
  stDevDependencies : gmap string Entry;
  stDependencyOverrides : gmap string Entry
}.

Record Request := { req_url : string; req_Authorization : string }.

Record Response := { StatusCode : Z; Status : string; Body : string }.

(** What the program calls but does not define. *)
Record World := {
  (** net/url: does [url.Parse] accept the string
      ([http.NewRequestWithContext] returns a nil request otherwise) *)
  url_Parse_ok : string → bool;
  (** [client.Do(req)] *)
  client_Do : Request → result Response;
  (** [json.NewDecoder(body).Decode(&branches)] *)
  json_Decode_branches : string → result (list Branch);
  (** [json.NewDecoder(body).Decode(&file)], the [content] field *)
  json_Decode_file : string → result string;
  (** [base64.StdEncoding.DecodeString] *)
  base64_DecodeString : string → result string;
  (** [yaml.Unmarshal(content, &ps)]: the struct after the call, and the
      error returned *)
  yaml_Unmarshal : string → Pubspec → Pubspec * option error;
  (** [sort.Slice] with the comparison given on elements *)
  sort_Slice : (Branch → Branch → bool) → list Branch → list Branch;
  (** [godotenv.Load(path)] followed by [os.Getenv("GITHUB_TOKEN")] *)
  load_token : string → string;
  (** [os.ReadFile] *)
  os_ReadFile : string → result string;
  (** [strings.Fields(strings.TrimSpace(s))] *)
  fields_trimmed : string → list string;
  (** [json.MarshalIndent] followed by [os.WriteFile] *)
  write_json : string → Stats → option error
}.

(** The outcome of a call that returns [(T, error)] and may panic. *)
Inductive ret (A : Type) : Type :=
| Val (a : A)
| Error (e : error)
| Panic.
Arguments Val {A} a.
Arguments Error {A} e.
Arguments Panic {A}.

(** [http.NewRequestWithContext(ctx, "GET", url, nil)]; [None] is the nil
    request returned together with the URL error the callers discard. *)
Definition http_NewRequest (w : World) (u : string) : option Request :=
  if url_Parse_ok w u then Some {| req_url := u; req_Authorization := "" |}
  else None.

(** [req.Header.Set("Authorization", "token "+token)] *)
Definition set_Authorization (req : Request) (token : string) : Request :=
  {| req_url := req_url req; req_Authorization := "token " +:+ token |}.

Definition branches_url (owner repo : string) : string :=
  "https://api.github.com/repos/" +:+ owner +:+ "/" +:+ repo +:+ "/branches".

Definition pubspec_url (owner repo branch : string) : string :=
  "https://api.github.com/repos/" +:+ owner +:+ "/" +:+ repo
    +:+ "/contents/pubspec.yaml?ref=" +:+ branch.

(** The [less] handed to [sort.Slice]. *)
Definition newer (a b : Branch) : bool := After (Date a) (Date b).

(** [x] may stand before [y] in a slice sorted by [newer]. *)
Definition not_older : relation Branch := λ x y, negb (newer y x).

(** What [sort.Slice] promises for this [less]: the same elements, none
    of them after an element it is [less] than.  It does not promise to
    keep the order of elements neither of which is [less] than the other. *)
Definition sort_Slice_contract
    (sort : (Branch → Branch → bool) → list Branch → list Branch) : Prop :=
  ∀ l, sort newer l ≡ₚ l ∧ StronglySorted not_older (sort newer l).

(** The selection as the specification words it: the latest author date
    wins, and among equal dates the branch listed first. *)
Fixpoint spec_latest (l : list Branch) : option Branch :=
  match l with
  | [] => None
  | b :: rest =>
      match spec_latest rest with
      | Some b' => if newer b' b then Some b' else Some b
      | None => Some b
      end
  end.

(** [getLatestBranch]: the requests sent, and the result. *)
Definition getLatestBranch (w : World) (owner repo token : string)
    : list Request * ret string :=
  match http_NewRequest w (branches_url owner repo) with
  | None => ([], Panic)
  | Some req0 =>
      let req := set_Authorization req0 token in
      match client_Do w req with
      | Err e => ([req], Error e)
      | Ok resp =>
          if bool_decide (StatusCode resp ≠ 200) then
            ([req], Error ("failed to get branches: " +:+ Status resp
                             +:+ " (" +:+ Body resp +:+ ")"))
          else
            match json_Decode_branches w (Body resp) with
            | Err e => ([req], Error e)
            | Ok branches =>
                if bool_decide (length branches = 0%nat) then
                  ([req], Error "no branches found")
                else
                  match sort_Slice w newer branches with
                  | b :: _ => ([req], Val (Name b))
                  | [] => ([req], Panic)
                  end
            end
      end
  end.

(** [getPubspec] *)
Definition getPubspec (w : World) (owner repo branch token : string)
    : list Request * ret string :=
  match http_NewRequest w (pubspec_url owner repo branch) with
  | None => ([], Panic)
  | Some req0 =>
      let req := set_Authorization req0 token in
      match client_Do w req with
      | Err e => ([req], Error e)
      | Ok resp =>
          if bool_decide (StatusCode resp ≠ 200) then
            ([req], Error ("failed to fetch pubspec.yaml from " +:+ owner
                             +:+ "/" +:+ repo +:+ " (" +:+ Status resp +:+ ")"))
          else
            match json_Decode_file w (Body resp) with
            | Err e => ([req], Error e)
            | Ok content =>
                match base64_DecodeString w content with
                | Err e => ([req], Error e)
                | Ok data => ([req], Val data)
                end
            end
      end
  end.

(** [parsePubspec]: the decoder's error is discarded. *)
Definition parsePubspec (w : World) (content : string) : Pubspec :=
  fst (yaml_Unmarshal w content zero_Pubspec).

(** The shared counters of [main]. *)
Record counter := {
  deps : gmap string Z;
  devDeps : gmap string Z;
  overrides : gmap string Z
}.

Definition empty_counter : counter :=
  {| deps := ∅; devDeps := ∅; overrides := ∅ |}.

(** The three loops run between [mu.Lock()] and [mu.Unlock()]. *)
Definition merge (stats : counter) (ps : Pubspec) : counter :=
  {| deps := incr_all (deps stats) (range_keys (Dependencies ps));
     devDeps := incr_all (devDeps stats) (range_keys (DevDependencies ps));
     overrides := incr_all (overrides stats) (range_keys (DependencyOverrides ps)) |}.

(** The three manifest sections, each with its own counter. *)
Inductive section : Type :=
| Runtime
| Dev
| Override.

Definition section_of (s : section) (ps : Pubspec) : gomap any :=
  match s with
  | Runtime => Dependencies ps
  | Dev => DevDependencies ps
  | Override => DependencyOverrides ps
  end.

Definition counter_of (s : section) (stats : counter) : gmap string Z :=
  match s with
  | Runtime => deps stats
  | Dev => devDeps stats
  | Override => overrides stats
  end.

(** How a goroutine of [main] ends. *)
Inductive outcome : Type :=
| Merged (ps : Pubspec)
| Skipped
| Crashed.

(** The keys a goroutine adds to the counter of section [s]. *)
Definition keys_of (s : section) (o : outcome) : list string :=
  match o with
  | Merged ps => range_keys (section_of s ps)
  | Skipped | Crashed => []
  end.

(** The goroutine reached the merge with a manifest declaring [p] in
    section [s]. *)
Definition declares (s : section) (p : string) (o : outcome) : bool :=
  bool_decide (p ∈ keys_of s o).

Record task_result := {
  t_log : list string;
  t_calls : list Request;
  t_outcome : outcome
}.

(** The first line a goroutine prints. *)
Definition processing (total i : nat) (full : string) : string :=
  "[" +:+ pretty (Z.of_nat i + 1) +:+ "/" +:+ pretty (Z.of_nat total)
    +:+ "] Processing " +:+ full +:+ "...".

(** The goroutine once [full] has been split into [owner] and [repo]:
    resolve the branch, fetch the manifest, parse it. *)
Definition fetch (w : World) (token : string) (total i : nat) (full owner repo : string)
    : task_result :=
  let l0 := [processing total i full] in
  match getLatestBranch w owner repo token with
  | (c1, Panic) => {| t_log := l0; t_calls := c1; t_outcome := Crashed |}
  | (c1, Error e) =>
      {| t_log := l0 ++ ["Error getting branch for " +:+ full +:+ ": " +:+ e];
         t_calls := c1; t_outcome := Skipped |}
  | (c1, Val branch) =>
      match getPubspec w owner repo branch token with
      | (c2, Panic) => {| t_log := l0; t_calls := c1 ++ c2; t_outcome := Crashed |}
      | (c2, Error e) =>
          {| t_log := l0 ++ ["Error fetching pubspec.yaml for " +:+ full +:+ ": " +:+ e];
             t_calls := c1 ++ c2; t_outcome := Skipped |}
      | (c2, Val content) =>
          {| t_log := l0; t_calls := c1 ++ c2;
             t_outcome := Merged (parsePubspec w content) |}
      end
  end.

(** The goroutine that stops at [len(parts) != 2]. *)
Definition invalid (total i : nat) (full : string) : task_result :=
  {| t_log := [processing total i full; "Invalid repo format: " +:+ full];
     t_calls := []; t_outcome := Skipped |}.

(** The body of the goroutine started for [repos[i] = full], between
    taking and giving back its slot of [sem]. *)
Definition task (w : World) (token : string) (total : nat) (i : nat) (full : string)
    : task_result :=
  match strings_Split full slash with
  | [owner; repo] => fetch w token total i full owner repo
  | _ => invalid total i full
  end.

(** The goroutines of [main], one per entry of [repos]. *)
Definition tasks (w : World) (token : string) (repos : list string) : list task_result :=
  imap (task w token (length repos)) repos.

Definition is_Crashed (r : task_result) : bool :=
  match t_outcome r with Crashed => true | _ => false end.

(** What a goroutine does to the counters while it holds [mu]. *)
Definition apply_outcome (stats : counter) (o : outcome) : counter :=
  match o with
  | Merged ps => merge stats ps
  | Skipped | Crashed => stats
  end.

(** What goroutine [i] does to the counters: the merge under [mu] when it
    gets that far, nothing when it returned or panicked before. *)
Definition locked (rs : list task_result) (i : nat) (stats : counter) : counter :=
  match rs !! i with
  | Some r => apply_outcome stats (t_outcome r)
  | None => stats
  end.

(** The counters once [wg.Wait()] returns, the goroutines having passed
    the mutex in the order [order] (indices into [repos]). *)
Definition collect (rs : list task_result) (order : list nat) : counter :=
  foldl (λ stats i, locked rs i stats) empty_counter order.

(** The number of goroutines that merged a manifest declaring [p] in
    section [s]. *)
Definition declaring (s : section) (p : string) (rs : list task_result) : nat :=
  length (filter (λ r, declares s p (t_outcome r)) rs).

Definition package_url (pkg : string) : string :=
  "https://pub.dev/packages/" +:+ pkg.

(** The body of the loops under "Filter by min usage". *)
Definition keep (minUsage : Z) (final : gmap string Entry) (kv : string * Z)
    : gmap string Entry :=
  let '(pkg, c) := kv in
  if GoInt.ge c minUsage
  then <[pkg := {| count := c; url := package_url pkg |}]> final
  else final.

(** One of the three loops: [for pkg, count := range m]. *)
Definition filter_section (m : gmap string Z) (minUsage : Z) : gmap string Entry :=
  foldl (keep minUsage) ∅ (map_to_list m).

Definition finalStats (stats : counter) (minUsage : Z) : Stats :=
  {| stDependencies := filter_section (deps stats) minUsage;
     stDevDependencies := filter_section (devDeps stats) minUsage;
     stDependencyOverrides := filter_section (overrides stats) minUsage |}.

Definition report_of (s : section) (final : Stats) : gmap string Entry :=
  match s with
  | Runtime => stDependencies final
  | Dev => stDevDependencies final
  | Override => stDependencyOverrides final
  end.

(** The flags after [flag.Parse()]. *)
Record Flags := {
  envPath : string;
  reposPath : string;
  outPath : string;
  minUsage : Z;
  helpFlag : bool
}.

Definition default_Flags : Flags :=
  {| envPath := ""; reposPath := ""; outPath := ""; minUsage := 1; helpFlag := false |}.

(** What one run of the process does: what [main] itself prints, what its
    goroutines did, the report written, and the exit status. *)
Record run := {
  r_stdout : list string;
  r_tasks : list task_result;
  r_written : option (string * Stats);
  r_exit : Z
}.

(** The text printed for [--help], line by line. *)
Definition usage : list string :=
  ["Usage:";
   "  pgs --env .env --repos repos.txt --out stats.json [--min N]";
   "";
   "Options:";
   "  --env     Path to .env file containing GITHUB_TOKEN";
   "  --repos   Path to file with GitHub repositories (format: owner/repo per line)";
   "  --out     Path to output JSON file";
   "  --min     Minimum number of package usages to include in stats (default: 1)";
   "  --help    Show this help message"].

(** [main] returning ends the process with status 0. *)
Definition returns (lines : list string) : run :=
  {| r_stdout := lines; r_tasks := []; r_written := None; r_exit := 0 |}.

(** The requests a run sent. *)
Definition network_calls (r : run) : list Request :=
  mjoin (t_calls <$> r_tasks r).

(** [main].  A goroutine that panics ends the process with status 2.  The
    deferred [wg.Done()] of that goroutine runs before the runtime ends the
    process, so the real [main] may get past [wg.Wait()] and as far as the
    write in the meantime; the record of such a run keeps what is certain,
    the status, and records neither output of [main] nor a report. *)
Definition main (w : World) (flags : Flags) (order : list nat) : run :=
  if helpFlag flags then returns usage
  else if bool_decide (envPath flags = "" ∨ reposPath flags = "" ∨ outPath flags = "")
  then returns ["Missing required arguments. Use --help for usage."]
  else
    let token := load_token w (envPath flags) in
    if bool_decide (token = "") then returns ["GITHUB_TOKEN not found in .env file"]
    else
      match os_ReadFile w (reposPath flags) with
      | Err e => returns ["Failed to read repos file: " +:+ e]
      | Ok file =>
          let repos := fields_trimmed w file in
          if bool_decide (length repos = 0%nat)
          then returns ["No repositories found in the file."]
          else
            let rs := tasks w token repos in
            if existsb is_Crashed rs then
              {| r_stdout := []; r_tasks := rs; r_written := None; r_exit := 2 |}
            else
              let final := finalStats (collect rs order) (minUsage flags) in
              match write_json w (outPath flags) final with
              | Some e =>
                  {| r_stdout := ["Failed to write JSON: " +:+ e];
                     r_tasks := rs; r_written := None; r_exit := 0 |}
              | None =>
                  {| r_stdout :=
                       ["âœ… Stats collected successfully (min usage "
                          +:+ pretty (minUsage flags) +:+ ")";
                        "Saved to " +:+ outPath flags];
                     r_tasks := rs;
                     r_written := Some (outPath flags, final);
                     r_exit := 0 |}
              end
      end.

End Extended.

(** ** The minimal program: the go-github collector *)
Module Minimal.

Record Pubspec := {
  Dependencies : gomap any;
  DevDependencies : gomap any
}.

Definition zero_Pubspec : Pubspec :=
  {| Dependencies := None; DevDependencies := None |}.

(** [github.RepositoryContent], as far as the program hands it on. *)
Record RepositoryContent := { Encoding : string; Content : string }.

Record World := {
  (** [client.Repositories.GetContents(ctx, owner, repo, path, nil)]: an
      error, or the file content, which is nil ([None]) when the path
      names a directory *)
  GetContents : string → string → string → result (option RepositoryContent);
  (** [content.GetContent()] on a non-nil content *)
  GetContent : RepositoryContent → result string;
  (** [yaml.Unmarshal(data, &p)]: the struct after the call, and the error
      returned *)
  yaml_Unmarshal : string → Pubspec → Pubspec * option error;
  (** [os.Open] and the lines a [bufio.Scanner] yields, with
      [scanner.Err()] *)
  scan_lines : string → result (list string * option error);
  (** [strings.TrimSpace] *)
  strings_TrimSpace : string → string;
  (** [os.ReadFile] *)
  os_ReadFile : string → result string;
  (** [json.MarshalIndent] followed by [os.WriteFile] *)
  write_file : string → gmap string Z → option error
}.

(** [readEnvToken] *)
Fixpoint scan_token (w : World) (lines : list string) : option string :=
  match lines with
  | [] => None
  | l :: rest =>
      let line := strings_TrimSpace w l in
      if strings_HasPrefix line "GITHUB_TOKEN="
      then Some (strings_TrimPrefix line "GITHUB_TOKEN=")
      else scan_token w rest
  end.

Definition readEnvToken (w : World) (path : string) : result string :=
  match scan_lines w path with
  | Err e => Err e
  | Ok (lines, scan_err) =>
      match scan_token w lines with
      | Some token => Ok token
      | None =>
          match scan_err with
          | Some e => Err e
          | None => Ok ""
          end
      end
  end.

Definition newline : ascii := ascii_of_nat 10.

(** [readRepos] *)
Definition readRepos (w : World) (path : string) : result (list string) :=
  match os_ReadFile w path with
  | Err e => Err e
  | Ok data =>
      Ok (filter (λ line, line ≠ "")
                 (strings_TrimSpace w <$> strings_Split data newline))
  end.

(** [extractDependencies] *)
Definition extractDependencies (w : World) (data : string) : result (list string) :=
  match yaml_Unmarshal w data zero_Pubspec with
  | (_, Some e) => Err e
  | (p, None) => Ok (range_keys (Dependencies p) ++ range_keys (DevDependencies p))
  end.

(** [splitRepo] *)
Definition splitRepo (full : string) : string * string * bool :=
  match strings_Split full slash with
  | [owner; repo] => (owner, repo, true)
  | _ => ("", "", false)
  end.

(** The two manifest sections, counted in one map. *)
Inductive section : Type :=
| Runtime
| Dev.

Definition section_of (s : section) (p : Pubspec) : gomap any :=
  match s with
  | Runtime => Dependencies p
  | Dev => DevDependencies p
  end.


(** How a goroutine of [collectDependencies] ends. *)
Inductive outcome : Type :=
| Merged (deps : list string)
| Skipped
| Crashed.

(** A call of the hosting API. *)
Record Call := { c_owner : string; c_repo : string; c_path : string }.

Record task_result := {
  t_log : list string;
  t_calls : list Call;
  t_outcome : outcome
}.

(** The goroutine once [splitRepo] has accepted [r]: fetch the manifest,
    decode it, extract its keys. *)
Definition fetch (w : World) (r owner repo : string) : task_result :=
  let call := {| c_owner := owner; c_repo := repo; c_path := "pubspec.yaml" |} in
  match GetContents w owner repo "pubspec.yaml" with
  | Err e =>
      {| t_log := ["[" +:+ r +:+ "] failed to fetch pubspec.yaml: " +:+ e];
         t_calls := [call]; t_outcome := Skipped |}
  | Ok None =>
      {| t_log := []; t_calls := [call]; t_outcome := Crashed |}
  | Ok (Some content) =>
      match GetContent w content with
      | Err e =>
          {| t_log := ["[" +:+ r +:+ "] failed to read pubspec.yaml: " +:+ e];
             t_calls := [call]; t_outcome := Skipped |}
      | Ok data =>
          match extractDependencies w data with
          | Err e =>
              {| t_log := ["[" +:+ r +:+ "] failed to parse yaml: " +:+ e];
                 t_calls := [call]; t_outcome := Skipped |}
          | Ok deps =>
              {| t_log := []; t_calls := [call]; t_outcome := Merged deps |}
          end
      end
  end.

(** The goroutine that stops at [!ok]. *)
Definition invalid (r : string) : task_result :=
  {| t_log := ["invalid repo format: " +:+ r]; t_calls := []; t_outcome := Skipped |}.

(** The body of the goroutine started for [r], between taking and giving
    back its slot of [sem]. *)
Definition task (w : World) (r : string) : task_result :=
  match splitRepo r with
  | (owner, repo, true) => fetch w r owner repo
  | (_, _, false) => invalid r
  end.

Definition tasks (w : World) (repos : list string) : list task_result :=
  task w <$> repos.

Definition is_Crashed (r : task_result) : bool :=
  match t_outcome r with Crashed => true | _ => false end.

(** What a goroutine does to [allDeps] while it holds [mu]. *)
Definition apply_outcome (allDeps : gmap string Z) (o : outcome) : gmap string Z :=
  match o with
  | Merged deps => incr_all allDeps deps
  | Skipped | Crashed => allDeps
  end.

(** What goroutine [i] does to [allDeps]: the loop under [mu] when it gets
    that far, nothing when it returned or panicked before. *)
Definition locked (rs : list task_result) (i : nat) (allDeps : gmap string Z)
    : gmap string Z :=
  match rs !! i with
  | Some r => apply_outcome allDeps (t_outcome r)
  | None => allDeps
  end.

(** [allDeps] once [wg.Wait()] returns, the goroutines having passed the
    mutex in the order [order] (indices into [repos]). *)
Definition collect (rs : list task_result) (order : list nat) : gmap string Z :=
  foldl (λ allDeps i, locked rs i allDeps) ∅ order.

(** The flags after [flag.Parse()]. *)
Record Flags := {
  reposFile : string;
  outFile : string;
  envFile : string;
  limit : Z;
  help : bool
}.

Definition default_Flags : Flags :=
  {| reposFile := ""; outFile := ""; envFile := ""; limit := 5; help := false |}.

Record run := {
  r_output : list string;
  r_tasks : list task_result;
  r_written : option (string * gmap string Z);
  r_exit : Z
}.

(** [printHelp], line by line. *)
Definition printHelp : list string :=
  ["GitHub pubspec.yaml stats collector";
   "";
   "Usage:";
   "  --env <path>     Path to .env file containing GITHUB_TOKEN";
   "  --repos <path>   Path to a file with GitHub repositories (one per line)";
   "  --out <path>     Path to JSON file to write the result";
   "  --limit <n>      Limit of concurrent requests (default: 5)";
   "  --help           Show this help message";
   "";
   "Example:";
   "  go run . --env .env --repos repos.txt --out stats.json --limit 3";
   "";
   "Env file example:";
   "  GITHUB_TOKEN=ghp_ABC123xyz"].

(** [os.Exit(1)] after printing, and [log.Fatal]. *)
Definition fatal (lines : list string) : run :=
  {| r_output := lines; r_tasks := []; r_written := None; r_exit := 1 |}.

(** The process killed by the runtime: a panic, or every goroutine asleep.
    The record keeps the status the runtime then gives, no output and no
    report; a process in which the runtime does not see that every
    goroutine is asleep hangs instead, and has no status at all. *)
Definition killed (rs : list task_result) : run :=
  {| r_output := []; r_tasks := rs; r_written := None; r_exit := 2 |}.

Definition network_calls (r : run) : list Call :=
  mjoin (t_calls <$> r_tasks r).

(** [main] with [collectDependencies] inlined.  [make(chan struct{}, limit)]
    panics on a negative [limit]; with [limit = 0] no goroutine ever gets
    past [sem <- struct{}{}]. *)
Definition main (w : World) (flags : Flags) (order : list nat) : run :=
  if help flags then
    {| r_output := printHelp; r_tasks := []; r_written := None; r_exit := 0 |}
  else if bool_decide (reposFile flags = "" ∨ outFile flags = "" ∨ envFile flags = "")
  then fatal ["Usage: go run . --env <path> --repos <path> --out <path> [--limit N]";
              "Run with --help to see all options."]
  else
    match readEnvToken w (envFile flags) with
    | Err e => fatal ["Failed to read GITHUB_TOKEN: " +:+ e]
    | Ok token =>
        if bool_decide (token = "") then fatal ["GITHUB_TOKEN not found in env file"]
        else
          match readRepos w (reposFile flags) with
          | Err e => fatal ["Failed to read repos file: " +:+ e]
          | Ok repos =>
              if bool_decide (limit flags < 0) then killed []
              else if bool_decide (limit flags = 0 ∧ repos ≠ []) then killed []
              else
                let rs := tasks w repos in
                if existsb is_Crashed rs then killed rs
                else
                  let allDeps := collect rs order in
                  match write_file w (outFile flags) allDeps with
                  | Some e =>
                      {| r_output := ["Failed to write output: " +:+ e];
                         r_tasks := rs; r_written := None; r_exit := 1 |}
                  | None =>
                      {| r_output :=
                           ["✅ Stats written to " +:+ outFile flags +:+ " ("
                              +:+ pretty (Z.of_nat (size allDeps)) +:+ " libraries)"];
                         r_tasks := rs;
                         r_written := Some (outFile flags, allDeps);
                         r_exit := 0 |}
                  end
          end
    end.

End Minimal.

(** ** The goroutines, [sem] and [mu]

    Both programs start one goroutine per repository; each one sends on the
    buffered channel [sem] before its fetch, takes [mu] for its merge, and
    receives from [sem] (deferred) when its body returns. *)
Module Pool.

(** Where a goroutine stands: not yet past [sem <- struct{}{}]; past it and
    before its turn under [mu]; past [mu.Unlock()] (or the early return that
    skips the merge) and before the deferred [<-sem]; past that. *)
Inductive pc : Type :=
| AtSend
| InFlight
| Merged
| Returned.

#[global] Instance pc_eq_dec : EqDecision pc.
Proof. solve_decision. Defined.

(** The goroutine holds a value of [sem]. *)
Definition holds_slot (p : pc) : bool :=
  match p with
  | InFlight | Merged => true
  | AtSend | Returned => false
  end.

(** The goroutine has had its turn under [mu]. *)
Definition past_mutex (p : pc) : bool :=
  match p with
  | Merged | Returned => true
  | AtSend | InFlight => false
  end.

Section pool.

Context {S : Type}.

(** The channel holds [sem_len] values out of a capacity of [sem_cap];
    [shared] is the state guarded by [mu], and [passed] lists the goroutines
    in the order they went through it. *)
Record state := {
  sem_len : nat;
  sem_cap : nat;
  procs : list pc;
  shared : S;
  passed : list nat
}.

Definition init (n cap : nat) (s0 : S) : state :=
  {| sem_len := 0; sem_cap := cap; procs := replicate n AtSend;
     shared := s0; passed := [] |}.

(** What goroutine [i] does to the shared state while it holds [mu]. *)
Variable body : nat → S → S.

(** A send on a buffered channel goes through when the buffer has room, a
    receive when it holds a value; no goroutine waits to receive before it
    has sent, so a channel without buffer lets no send through.  The mutex
    makes the merge of a goroutine one step.  A goroutine that returns
    before [mu.Lock()] is given the same step with a [body] that leaves the
    shared state as it is ([locked] below [Extended] and [Minimal]); a
    panic, which ends all goroutines at once, has no step here. *)
Inductive step : state → state → Prop :=
| step_send (st : state) (i : nat) :
    procs st !! i = Some AtSend →
    (sem_len st < sem_cap st)%nat →
    step st {| sem_len := Datatypes.S (sem_len st); sem_cap := sem_cap st;
               procs := <[i := InFlight]> (procs st);
               shared := shared st; passed := passed st |}
| step_merge (st : state) (i : nat) :
    procs st !! i = Some InFlight →
    step st {| sem_len := sem_len st; sem_cap := sem_cap st;
               procs := <[i := Merged]> (procs st);
               shared := body i (shared st); passed := passed st ++ [i] |}
| step_recv (st : state) (i : nat) :
    procs st !! i = Some Merged →
    (0 < sem_len st)%nat →
    step st {| sem_len := pred (sem_len st); sem_cap := sem_cap st;
               procs := <[i := Returned]> (procs st);
               shared := shared st; passed := passed st |}.

Inductive reachable (s0 : state) : state → Prop :=
| reach_init : reachable s0 s0
| reach_step (st st' : state) : reachable s0 st → step st st' → reachable s0 st'.

(** The goroutines holding a slot. *)
Definition in_flight (st : state) : nat :=
  length (filter (λ p, holds_slot p) (procs st)).

(** Every goroutine in flight holds one value of the channel. *)
Definition slots_held (st : state) : Prop :=
  in_flight st = sem_len st ∧ (sem_len st ≤ sem_cap st)%nat.

(** [wg.Wait()] returns: every goroutine has returned. *)
Definition all_returned (st : state) : Prop :=
  Forall (λ p, p = Returned) (procs st).

(** What the goroutines have done to the shared state so far: each of
    those past the mutex has had its turn once, in the order of [passed]. *)
Definition merged_in_order (s0 : S) (st : state) : Prop :=
  shared st = foldl (λ s i, body i s) s0 (passed st)
  ∧ NoDup (passed st)
  ∧ ∀ i, i ∈ passed st ↔ ∃ p, procs st !! i = Some p ∧ past_mutex p = true.

End pool.

Arguments state : clear implicits.

End Pool.

(** The capacity given to [make(chan struct{}, _)]. *)
Definition Extended_sem_cap : Z := 5.
Definition Minimal_sem_cap (flags : Minimal.Flags) : Z := Minimal.limit flags.

(** ** Sample worlds

    Small worlds the programs can be run in: three repositories a/b, c/d and
    e/f, the last of which has no manifest. *)
Module Samples.

Definition manifest (keys : list string) : gomap any :=
  Some (list_to_map ((λ k, (k, AStr "^1.0")) <$> keys)).

(** A sort by merging. *)
Definition merge_Slice {A} (less : A → A → bool) (l : list A) : list A :=
  merge_sort (λ x y, negb (less y x)) l.

(** The same sort started from the far end of the slice. *)
Definition backward_Slice {A} (less : A → A → bool) (l : list A) : list A :=
  merge_sort (λ x y, negb (less y x)) (reverse l).

Definition date_2023_01_01 : Z := 1672531200.
Definition date_2023_12_31 : Z := 1703980800.
Definition date_2024_06_01 : Z := 1717200000.

Definition three_branches : list Extended.Branch :=
  [ {| Extended.Name := "legacy"; Extended.Date := date_2023_01_01 |};
    {| Extended.Name := "main"; Extended.Date := date_2024_06_01 |};
    {| Extended.Name := "dev"; Extended.Date := date_2023_12_31 |} ].

(** Thirteen branches; the second and the last share the latest date. *)
Definition thirteen_branches : list Extended.Branch :=
  imap (λ i name,
          {| Extended.Name := name;
             Extended.Date := if bool_decide (i = 1%nat ∨ i = 12%nat)
                              then date_2024_06_01 else date_2023_01_01 |})
       ["b0"; "b1"; "b2"; "b3"; "b4"; "b5"; "b6"; "b7"; "b8"; "b9"; "b10"; "b11"; "b12"].

Definition ok_response (body : string) : Extended.Response :=
  {| Extended.StatusCode := 200; Extended.Status := "200 OK"; Extended.Body := body |}.

Definition not_found : Extended.Response :=
  {| Extended.StatusCode := 404; Extended.Status := "404 Not Found"; Extended.Body := "" |}.

Definition route (u : string) : result Extended.Response :=
  if bool_decide (u = Extended.branches_url "a" "b" ∨ u = Extended.branches_url "c" "d"
                  ∨ u = Extended.branches_url "e" "f" ∨ u = Extended.branches_url "g" "h")
  then Ok (ok_response "three")
  else if bool_decide (u = Extended.branches_url "m" "n") then Ok (ok_response "thirteen")
  else if bool_decide (u = Extended.pubspec_url "a" "b" "main") then Ok (ok_response "M1")
  else if bool_decide (u = Extended.pubspec_url "c" "d" "main") then Ok (ok_response "M2")
  else if bool_decide (u = Extended.pubspec_url "g" "h" "main") then Ok (ok_response "M3")
  else if bool_decide (u = Extended.branches_url "k" "l") then Ok (ok_response "three")
  else if bool_decide (u = Extended.pubspec_url "k" "l" "main") then Ok (ok_response "M4")
  else if bool_decide (u = Extended.pubspec_url "e" "f" "main") then Ok not_found
  else Err "dial tcp: no route to host".

(** A decoder over three documents: M1 and M2 decode, M3 holds a sequence
    where [dependencies] wants a mapping and decodes in part.  Anything
    else is not YAML and leaves the struct as it was. *)
Definition decode (content : string) (ps : Extended.Pubspec)
    : Extended.Pubspec * option error :=
  if bool_decide (content = "M1") then
    ({| Extended.Dependencies := manifest ["http"];
        Extended.DevDependencies := Extended.DevDependencies ps;
        Extended.DependencyOverrides := Extended.DependencyOverrides ps |}, None)
  else if bool_decide (content = "M2") then
    ({| Extended.Dependencies := manifest ["http"; "provider"];
        Extended.DevDependencies := Extended.DevDependencies ps;
        Extended.DependencyOverrides := Extended.DependencyOverrides ps |}, None)
  else if bool_decide (content = "M3") then
    ({| Extended.Dependencies := Extended.Dependencies ps;
        Extended.DevDependencies := manifest ["lints"];
        Extended.DependencyOverrides := Extended.DependencyOverrides ps |},
     Some "yaml: unmarshal errors: cannot unmarshal !!seq into map[string]interface {}")
  else (ps, Some "yaml: did not find expected key").

Definition percent : ascii := "%"%char.

(** The sample worlds take [url.Parse] to refuse a URL that holds a percent
    sign, as it does the escape "%zz". *)

Definition extended (sort : (Extended.Branch → Extended.Branch → bool) →
                           list Extended.Branch → list Extended.Branch)
    : Extended.World :=
  {| Extended.url_Parse_ok := λ u, bool_decide (count_byte percent u = O);
     Extended.client_Do := λ req, route (Extended.req_url req);
     Extended.json_Decode_branches := λ body,
       if bool_decide (body = "three") then Ok three_branches
       else if bool_decide (body = "thirteen") then Ok thirteen_branches
       else Err "invalid character";
     Extended.json_Decode_file := λ body, Ok body;
     Extended.base64_DecodeString := λ s, Ok s;
     Extended.yaml_Unmarshal := decode;
     Extended.sort_Slice := sort;
     Extended.load_token := λ path, if bool_decide (path = ".env") then "tok" else "";
     Extended.os_ReadFile := λ path,
       if bool_decide (path = "repos.txt") then Ok "a/b e/f c/d"
       else if bool_decide (path = "broken.txt") then Ok "a/b a%zz/b"
       else Err "open: no such file or directory";
     Extended.fields_trimmed := λ file,
       if bool_decide (file = "a/b e/f c/d") then ["a/b"; "e/f"; "c/d"]
       else if bool_decide (file = "a/b a%zz/b") then ["a/b"; "a%zz/b"]
       else [];
     Extended.write_json := λ _ _, None |}.

Definition flags : Extended.Flags :=
  {| Extended.envPath := ".env"; Extended.reposPath := "repos.txt";
     Extended.outPath := "stats.json"; Extended.minUsage := 1;
     Extended.helpFlag := false |}.

Definition broken_flags : Extended.Flags :=
  {| Extended.envPath := ".env"; Extended.reposPath := "broken.txt";
     Extended.outPath := "stats.json"; Extended.minUsage := 1;
     Extended.helpFlag := false |}.

Definition decode_minimal (data : string) (p : Minimal.Pubspec)
    : Minimal.Pubspec * option error :=
  if bool_decide (data = "M1") then
    ({| Minimal.Dependencies := manifest ["http"];
        Minimal.DevDependencies := Minimal.DevDependencies p |}, None)
  else if bool_decide (data = "M2") then
    ({| Minimal.Dependencies := manifest ["http"; "test"];
        Minimal.DevDependencies := manifest ["test"] |}, None)
  else (p, Some "yaml: did not find expected key").

Definition minimal : Minimal.World :=
  {| Minimal.GetContents := λ owner repo path,
       if bool_decide (owner = "a" ∧ repo = "b") then
         Ok (Some {| Minimal.Encoding := "base64"; Minimal.Content := "M1" |})
       else if bool_decide (owner = "c" ∧ repo = "d") then
         Ok (Some {| Minimal.Encoding := "base64"; Minimal.Content := "M2" |})
       else if bool_decide (owner = "g" ∧ repo = "h") then
         Ok (Some {| Minimal.Encoding := "base64"; Minimal.Content := "M3" |})
       else Err "404 Not Found";
     Minimal.GetContent := λ c, Ok (Minimal.Content c);
     Minimal.yaml_Unmarshal := decode_minimal;
     Minimal.scan_lines := λ path,
       if bool_decide (path = ".env") then Ok (["# token"; "GITHUB_TOKEN=tok"], None)
       else Err "open: no such file or directory";
     Minimal.strings_TrimSpace := λ s, s;
     Minimal.os_ReadFile := λ path,
       if bool_decide (path = "repos.txt")
       then Ok ("a/b" +:+ String Minimal.newline ("e/f" +:+ String Minimal.newline "c/d"))
       else Err "open: no such file or directory";
     Minimal.write_file := λ _ _, None |}.

(** Two goroutines that reached the merge with the keys {a, b} and
    {b, c} under [dependencies]. *)
Definition merged_ab : Extended.task_result :=
  {| Extended.t_log := []; Extended.t_calls := [];
     Extended.t_outcome :=
       Extended.Merged {| Extended.Dependencies := manifest ["a"; "b"];
                          Extended.DevDependencies := None;
                          Extended.DependencyOverrides := None |} |}.

Definition merged_bc : Extended.task_result :=
  {| Extended.t_log := []; Extended.t_calls := [];
     Extended.t_outcome :=
       Extended.Merged {| Extended.Dependencies := manifest ["b"; "c"];
                          Extended.DevDependencies := None;
                          Extended.DependencyOverrides := None |} |}.

Definition minimal_flags : Minimal.Flags :=
  {| Minimal.reposFile := "repos.txt"; Minimal.outFile := "stats.json";
     Minimal.envFile := ".env"; Minimal.limit := 5; Minimal.help := false |}.

End Samples.


(** ** Further definitions *)

(** The keys a goroutine of the minimal program adds to [allDeps]. *)
Definition Minimal_keys_of (o : Minimal.outcome) : list string :=
  match o with
  | Minimal.Merged deps => deps
  | Minimal.Skipped | Minimal.Crashed => []
  end.

(** The declarations of [p] the goroutines of the minimal program merged. *)
Definition Minimal_declarations (p : string) (rs : list Minimal.task_result) : nat :=
  occ p (mjoin (Minimal_keys_of <$> (Minimal.t_outcome <$> rs))).

(** The report without any entry. *)
Definition empty_Stats : Extended.Stats :=
  {| Extended.stDependencies := ∅; Extended.stDevDependencies := ∅;
     Extended.stDependencyOverrides := ∅ |}.

(** The call a line of the repository file leads to in the minimal
    program, if any. *)
Definition Minimal_call_of (line : string) : option Minimal.Call :=
  match strings_Split line slash with
  | [owner; repo] =>
      Some {| Minimal.c_owner := owner; Minimal.c_repo := repo;
              Minimal.c_path := "pubspec.yaml" |}
  | _ => None
  end.

(** [url.Parse] accepts the URLs cmd/main.go builds for the lines [repos]:
    the branches URL of every line with two parts, and the pubspec.yaml URL
    at the branch [getLatestBranch] returns for it. *)
Definition Extended_urls_parse (w : Extended.World) (token : string)
    (repos : list string) : Prop :=
  ∀ line owner repo,
    line ∈ repos → strings_Split line slash = [owner; repo] →
    Extended.url_Parse_ok w (Extended.branches_url owner repo) = true
    ∧ ∀ c branch,
        Extended.getLatestBranch w owner repo token = (c, Extended.Val branch) →
        Extended.url_Parse_ok w (Extended.pubspec_url owner repo branch) = true.

(** The goroutines of cmd/main.go for a repository file of six lines. *)
Definition Samples_six : list Extended.task_result :=
  Extended.tasks (Samples.extended (@Samples.merge_Slice Extended.Branch)) "tok"
    ["a/b"; "e/f"; "c/d"; "a/b"; "e/f"; "c/d"].

(** The token line [readEnvToken] looks for. *)
Definition token_prefix : string := "GITHUB_TOKEN=".

(** Sample worlds with an empty repository file, and with an output file
    that cannot be written. *)
Definition Samples_empty : Extended.World :=
  let w := Samples.extended (@Samples.merge_Slice Extended.Branch) in
  {| Extended.url_Parse_ok := Extended.url_Parse_ok w;
     Extended.client_Do := Extended.client_Do w;
     Extended.json_Decode_branches := Extended.json_Decode_branches w;
     Extended.json_Decode_file := Extended.json_Decode_file w;
     Extended.base64_DecodeString := Extended.base64_DecodeString w;
     Extended.yaml_Unmarshal := Extended.yaml_Unmarshal w;
     Extended.sort_Slice := Extended.sort_Slice w;
     Extended.load_token := Extended.load_token w;
     Extended.os_ReadFile := λ _, Ok "";
     Extended.fields_trimmed := Extended.fields_trimmed w;
     Extended.write_json := Extended.write_json w |}.

Definition Samples_empty_minimal : Minimal.World :=
  {| Minimal.GetContents := Minimal.GetContents Samples.minimal;
     Minimal.GetContent := Minimal.GetContent Samples.minimal;
     Minimal.yaml_Unmarshal := Minimal.yaml_Unmarshal Samples.minimal;
     Minimal.scan_lines := Minimal.scan_lines Samples.minimal;
     Minimal.strings_TrimSpace := Minimal.strings_TrimSpace Samples.minimal;
     Minimal.os_ReadFile := λ _, Ok "";
     Minimal.write_file := Minimal.write_file Samples.minimal |}.

Definition Samples_readonly : Extended.World :=
  let w := Samples.extended (@Samples.merge_Slice Extended.Branch) in
  {| Extended.url_Parse_ok := Extended.url_Parse_ok w;
     Extended.client_Do := Extended.client_Do w;
     Extended.json_Decode_branches := Extended.json_Decode_branches w;
     Extended.json_Decode_file := Extended.json_Decode_file w;
     Extended.base64_DecodeString := Extended.base64_DecodeString w;
     Extended.yaml_Unmarshal := Extended.yaml_Unmarshal w;
     Extended.sort_Slice := Extended.sort_Slice w;
     Extended.load_token := Extended.load_token w;
     Extended.os_ReadFile := Extended.os_ReadFile w;
     Extended.fields_trimmed := Extended.fields_trimmed w;
     Extended.write_json := λ _ _, Some "open stats.json: permission denied" |}.

Definition Samples_readonly_minimal : Minimal.World :=
  {| Minimal.GetContents := Minimal.GetContents Samples.minimal;
     Minimal.GetContent := Minimal.GetContent Samples.minimal;
     Minimal.yaml_Unmarshal := Minimal.yaml_Unmarshal Samples.minimal;
     Minimal.scan_lines := Minimal.scan_lines Samples.minimal;
     Minimal.strings_TrimSpace := Minimal.strings_TrimSpace Samples.minimal;
     Minimal.os_ReadFile := Minimal.os_ReadFile Samples.minimal;
     Minimal.write_file := λ _ _, Some "open stats.json: permission denied" |}.



(** ** The manifest decoder

    The programs hand the manifest to [yaml.Unmarshal] of gopkg.in/yaml.v3,
    which is not part of the repository.  What follows describes it as the
    specification does. *)














(** * Properties *)

#[local] Set Warnings "-clear-no-such-hyp".

(** ** Wrapping increments *)
Section go_int.

Lemma wrap_in_range z : GoInt.in_range z → GoInt.wrap z = z.
Proof.
  unfold GoInt.in_range, GoInt.min_int, GoInt.max_int, GoInt.wrap. intros Hz.
  rewrite Z.mod_small; lia.
Qed.

Lemma wrap_succ z : GoInt.wrap (GoInt.wrap z + 1) = GoInt.wrap (z + 1).
Proof.
  unfold GoInt.wrap.
  replace ((z + 2 ^ 63) mod 2 ^ 64 - 2 ^ 63 + 1 + 2 ^ 63)
    with ((z + 2 ^ 63) mod 2 ^ 64 + 1) by lia.
  rewrite Zplus_mod_idemp_l. f_equal. f_equal. lia.
Qed.

Lemma iter_incr (n : nat) z :
  Nat.iter n GoInt.incr z = if decide (n = O) then z else GoInt.wrap (z + Z.of_nat n).
Proof.
  induction n as [|n IH]; [done|].
  rewrite Nat.iter_succ, IH. unfold GoInt.incr.
  destruct (decide (n = O)) as [->|Hn]; destruct (decide (S _ = O)); try done.
  rewrite wrap_succ. f_equal. lia.
Qed.

End go_int.

(** ** Counting with [m[k]++] *)
Section counting.

Implicit Types (m : gmap string Z) (ks : list string) (p k : string).

Lemma occ_nil p : occ p [] = O.
Proof. done. Qed.

Lemma occ_cons p k ks : occ p (k :: ks) = ((if decide (k = p) then 1 else 0) + occ p ks)%nat.
Proof. unfold occ. rewrite filter_cons. by case_decide. Qed.

Lemma occ_app p ks1 ks2 : occ p (ks1 ++ ks2) = (occ p ks1 + occ p ks2)%nat.
Proof. unfold occ. by rewrite filter_app, length_app. Qed.

Lemma occ_perm p ks1 ks2 : ks1 ≡ₚ ks2 → occ p ks1 = occ p ks2.
Proof. intros H. unfold occ. by rewrite H. Qed.

Lemma occ_0 p ks : occ p ks = O ↔ p ∉ ks.
Proof.
  induction ks as [|k ks IH]; [rewrite occ_nil; set_solver|].
  rewrite occ_cons, not_elem_of_cons. case_decide; [subst|]; split; try lia.
  - intros [? _]. done.
  - intros. split; [congruence|]. apply IH. lia.
  - intros [_ ?]. apply IH in H0. lia.
Qed.

Lemma occ_NoDup p ks : NoDup ks → occ p ks = if decide (p ∈ ks) then 1%nat else O.
Proof.
  induction 1 as [|k ks Hk Hnd IH]; [done|].
  rewrite occ_cons, IH.
  destruct (decide (k = p)) as [->|Hne];
    destruct (decide (p ∈ ks)) as [Hin|Hnin];
    destruct (decide (p ∈ _ :: ks)) as [Hin'|Hnin']; try done.
  - exfalso. apply Hnin'. left.
  - exfalso. apply Hnin'. by right.
  - apply elem_of_cons in Hin' as [?|?]; congruence.
Qed.

Lemma map_incr_default m k p :
  default 0 (map_incr m k !! p) =
  if decide (k = p) then GoInt.incr (default 0 (m !! p)) else default 0 (m !! p).
Proof.
  unfold map_incr. case_decide; [subst; by rewrite lookup_insert_eq|].
  by rewrite lookup_insert_ne.
Qed.

(** What a run of increments leaves at [p]. *)
Lemma incr_all_default m ks p :
  default 0 (incr_all m ks !! p) = Nat.iter (occ p ks) GoInt.incr (default 0 (m !! p)).
Proof.
  revert m. induction ks as [|k ks IH]; intros m; [done|].
  unfold incr_all in *. cbn [foldl]. rewrite IH, map_incr_default, occ_cons.
  case_decide; [|done]. cbn [Nat.add]. by rewrite Nat.iter_succ_r.
Qed.

Lemma incr_all_absent m ks p : p ∉ ks → incr_all m ks !! p = m !! p.
Proof.
  revert m. induction ks as [|k ks IH]; intros m Hp; [done|].
  apply not_elem_of_cons in Hp as [Hne Hp].
  unfold incr_all in *. cbn [foldl]. rewrite IH by done.
  unfold map_incr. by rewrite lookup_insert_ne.
Qed.

Lemma incr_all_present m ks p : p ∈ ks → is_Some (incr_all m ks !! p).
Proof.
  revert m. induction ks as [|k ks IH]; intros m Hp; [by apply elem_of_nil in Hp|].
  unfold incr_all in *. cbn [foldl].
  destruct (decide (p ∈ ks)) as [Hin|Hnin]; [by apply IH|].
  fold (incr_all (map_incr m k) ks). rewrite incr_all_absent by done.
  apply elem_of_cons in Hp as [->|?]; [|done].
  unfold map_incr. rewrite lookup_insert_eq. eauto.
Qed.

Lemma incr_all_lookup m ks p :
  incr_all m ks !! p =
  if decide (p ∈ ks)
  then Some (GoInt.wrap (default 0 (m !! p) + Z.of_nat (occ p ks)))
  else m !! p.
Proof.
  case_decide as Hp; [|by apply incr_all_absent].
  destruct (incr_all_present m ks p Hp) as [v Hv].
  pose proof (incr_all_default m ks p) as Hd. rewrite Hv in Hd. cbn in Hd.
  rewrite Hv, Hd, iter_incr. case_decide as H0; [|done].
  apply occ_0 in H0. done.
Qed.

Lemma incr_all_app m ks1 ks2 : incr_all m (ks1 ++ ks2) = incr_all (incr_all m ks1) ks2.
Proof. unfold incr_all. apply foldl_app. Qed.

(** The order in which the keys are visited does not matter. *)
Lemma incr_all_perm m ks1 ks2 : ks1 ≡ₚ ks2 → incr_all m ks1 = incr_all m ks2.
Proof.
  intros Hp. apply map_eq. intros p. rewrite !incr_all_lookup.
  rewrite (occ_perm p _ _ Hp). repeat case_decide; try done.
  - rewrite Hp in *. done.
  - rewrite <- Hp in *. done.
Qed.

Lemma range_keys_NoDup {V} (m : gomap V) : NoDup (range_keys m).
Proof. destruct m as [g|]; [apply NoDup_fst_map_to_list|constructor]. Qed.

Lemma elem_of_range_keys {V} (m : gomap V) p :
  p ∈ range_keys m ↔ ∃ g, m = Some g ∧ is_Some (g !! p).
Proof.
  destruct m as [g|]; cbn.
  - rewrite list_elem_of_fmap. split.
    + intros [[k v] [-> Hkv]]. apply elem_of_map_to_list in Hkv. eauto.
    + intros (g' & [= <-] & v & Hv). exists (p, v). split; [done|].
      by apply elem_of_map_to_list.
  - split; [by intros ?%elem_of_nil|]. by intros (? & ? & ?).
Qed.

End counting.

(** ** Schedules *)
Section schedules.

Context {A : Type}.

Lemma mjoin_cons (x : list A) (ls : list (list A)) : mjoin (x :: ls) = x ++ mjoin ls.
Proof. done. Qed.

Lemma omap_lookup_seq (l : list A) (pre : list A) :
  omap (λ i, (pre ++ l) !! i) (seq (length pre) (length l)) = l.
Proof.
  revert pre. induction l as [|x l IH]; intros pre; [done|].
  cbn [length seq]. cbn [omap list_omap].
  rewrite lookup_app_r, Nat.sub_diag by lia. cbn. f_equal.
  specialize (IH (pre ++ [x])). rewrite length_app, <- app_assoc in IH.
  cbn in IH. by rewrite Nat.add_1_r in IH.
Qed.

(** A schedule that runs every goroutine once visits every result once. *)
Lemma omap_lookup_schedule (l : list A) (order : list nat) :
  order ≡ₚ seq 0 (length l) → omap (λ i, l !! i) order ≡ₚ l.
Proof.
  intros ->. pose proof (omap_lookup_seq l []) as H. cbn in H. by rewrite H.
Qed.

End schedules.

(** ** The extended aggregator *)
Section extended_aggregation.

Import Extended.

Implicit Types (stats : counter) (rs : list task_result) (s : section) (p : string).

Lemma counter_of_merge s stats ps :
  counter_of s (merge stats ps) = incr_all (counter_of s stats) (range_keys (section_of s ps)).
Proof. by destruct s. Qed.

Lemma counter_of_apply s stats o :
  counter_of s (apply_outcome stats o) = incr_all (counter_of s stats) (keys_of s o).
Proof. destruct o; [apply counter_of_merge|done..]. Qed.

Lemma counter_of_foldl s stats (os : list outcome) :
  counter_of s (foldl apply_outcome stats os) =
  incr_all (counter_of s stats) (mjoin (keys_of s <$> os)).
Proof.
  revert stats. induction os as [|o os IH]; intros stats; [done|].
  rewrite fmap_cons, mjoin_cons, incr_all_app. cbn [foldl].
  by rewrite IH, counter_of_apply.
Qed.

Lemma collect_foldl rs (order : list nat) :
  collect rs order =
  foldl apply_outcome empty_counter (t_outcome <$> omap (λ i, rs !! i) order).
Proof.
  unfold collect. generalize empty_counter.
  induction order as [|i order IH]; intros stats; [done|].
  cbn [foldl omap list_omap]. rewrite IH. unfold locked.
  destruct (rs !! i) as [r|]; done.
Qed.

Lemma keys_of_NoDup s o : NoDup (keys_of s o).
Proof. destruct o; cbn; [apply range_keys_NoDup|constructor..]. Qed.

Lemma occ_keys s p rs :
  occ p (mjoin (keys_of s <$> (t_outcome <$> rs))) = declaring s p rs.
Proof.
  unfold declaring. induction rs as [|r rs IH]; [done|].
  rewrite !fmap_cons, mjoin_cons, occ_app, IH, filter_cons.
  rewrite occ_NoDup by apply keys_of_NoDup. unfold declares.
  destruct (decide (p ∈ keys_of s (t_outcome r))) as [Hin|Hnin].
  - rewrite decide_True by (by apply bool_decide_spec). done.
  - rewrite decide_False by (by rewrite bool_decide_spec). done.
Qed.

Lemma declaring_perm s p rs1 rs2 : rs1 ≡ₚ rs2 → declaring s p rs1 = declaring s p rs2.
Proof. intros H. unfold declaring. by rewrite H. Qed.

Lemma declaring_le s p rs : (declaring s p rs ≤ length rs)%nat.
Proof. apply length_filter. Qed.

(** The counter a schedule leaves for [p], before any bound on the number
    of repositories is used. *)
Lemma collect_lookup rs order s p :
  order ≡ₚ seq 0 (length rs) →
  counter_of s (collect rs order) !! p =
  if decide (declaring s p rs = O) then None
  else Some (GoInt.wrap (Z.of_nat (declaring s p rs))).
Proof.
  intros Hord. rewrite collect_foldl, counter_of_foldl, incr_all_lookup.
  pose proof (omap_lookup_schedule rs order Hord) as Hperm.
  set (ks := mjoin _).
  assert (occ p ks = declaring s p rs) as Hocc.
  { unfold ks. rewrite occ_keys. by apply declaring_perm. }
  assert (counter_of s empty_counter = ∅) as -> by (by destruct s).
  rewrite lookup_empty, Hocc. cbn [default].
  case_decide as Hin; case_decide as H0; try done.
  - rewrite <- Hocc in H0. apply occ_0 in H0. done.
  - rewrite <- Hocc in H0. exfalso. apply H0. by apply occ_0.
Qed.

End extended_aggregation.

(** ** Usage counters *)
Section usage_counters.

Import Extended.

Lemma declares_true s p o : declares s p o = true ↔ p ∈ keys_of s o.
Proof. unfold declares. apply bool_decide_eq_true. Qed.

Lemma declaring_cons s p r rs :
  declaring s p (r :: rs) =
  ((if declares s p (t_outcome r) then 1 else 0) + declaring s p rs)%nat.
Proof.
  unfold declaring. rewrite filter_cons.
  destruct (declares s p (t_outcome r)); by case_decide.
Qed.

Lemma declaring_two s p r1 r2 (x y : bool) :
  declares s p (t_outcome r1) = x → declares s p (t_outcome r2) = y →
  declaring s p [r1; r2] = ((if x then 1 else 0) + (if y then 1 else 0))%nat.
Proof. intros <- <-. rewrite !declaring_cons. unfold declaring. cbn. lia. Qed.

Lemma declares_perm s p o ks :
  keys_of s o ≡ₚ ks → declares s p o = bool_decide (p ∈ ks).
Proof. intros H. unfold declares. apply bool_decide_ext. by rewrite H. Qed.

(** The counters of cmd/main.go.  Whatever the order in which the
    goroutines pass the mutex, the counter of a package in a section is the
    number of goroutines (one per line of the repository file) that
    reached the merge with a manifest declaring the package in that
    section (the key is absent when there is none); one merge raises it by
    one when the manifest declares the package and leaves it alone
    otherwise; two manifests whose section holds the keys {a, b} and
    {b, c} leave b at 2 and a and c at 1. *)
Lemma Extended_counter_is_number_of_declaring_goroutines
    (rs : list task_result) (order : list nat) (s : section) (p : string)
    (stats : counter) (ps : Pubspec)
    (r1 r2 : task_result) (ps1 ps2 : Pubspec) (order2 : list nat) (a b c : string) :
  order ≡ₚ seq 0 (length rs) →
  Z.of_nat (length rs) ≤ GoInt.max_int →
  t_outcome r1 = Merged ps1 →
  t_outcome r2 = Merged ps2 →
  range_keys (section_of s ps1) ≡ₚ [a; b] →
  range_keys (section_of s ps2) ≡ₚ [b; c] →
  a ≠ c →
  order2 ≡ₚ [0%nat; 1%nat] →
  counter_of s (collect rs order) !! p =
    (if decide (declaring s p rs = O) then None
     else Some (Z.of_nat (declaring s p rs)))
  ∧ default 0 (counter_of s (merge stats ps) !! p) =
    (if decide (p ∈ range_keys (section_of s ps))
     then GoInt.incr (default 0 (counter_of s stats !! p))
     else default 0 (counter_of s stats !! p))
  ∧ counter_of s (collect [r1; r2] order2) !! b = Some 2
  ∧ counter_of s (collect [r1; r2] order2) !! a = Some 1
  ∧ counter_of s (collect [r1; r2] order2) !! c = Some 1.
Proof.
  intros Hord Hlen Ho1 Ho2 Hk1 Hk2 Hac Hord2.
  assert (a ≠ b ∧ b ≠ c) as [Hab Hbc].
  { pose proof (range_keys_NoDup (section_of s ps1)) as N1.
    pose proof (range_keys_NoDup (section_of s ps2)) as N2.
    rewrite Hk1 in N1. rewrite Hk2 in N2.
    apply NoDup_cons in N1 as [N1 _]. apply NoDup_cons in N2 as [N2 _].
    rewrite list_elem_of_singleton in N1, N2. done. }
  split; [|split].
  - rewrite collect_lookup by done. case_decide; [done|].
    rewrite wrap_in_range; [done|].
    pose proof (declaring_le s p rs).
    unfold GoInt.in_range, GoInt.min_int, GoInt.max_int in *. lia.
  - rewrite counter_of_merge, incr_all_default.
    rewrite occ_NoDup by apply range_keys_NoDup. by case_decide.
  - assert (∀ q, declares s q (t_outcome r1) = bool_decide (q ∈ [a; b])) as D1.
    { intros q. apply declares_perm. by rewrite Ho1. }
    assert (∀ q, declares s q (t_outcome r2) = bool_decide (q ∈ [b; c])) as D2.
    { intros q. apply declares_perm. by rewrite Ho2. }
    rewrite !collect_lookup by done.
    rewrite (declaring_two s b r1 r2 _ _ (D1 b) (D2 b)).
    rewrite (declaring_two s a r1 r2 _ _ (D1 a) (D2 a)).
    rewrite (declaring_two s c r1 r2 _ _ (D1 c) (D2 c)).
    rewrite (bool_decide_eq_true_2 (b ∈ [a; b])) by set_solver.
    rewrite (bool_decide_eq_true_2 (b ∈ [b; c])) by set_solver.
    rewrite (bool_decide_eq_true_2 (a ∈ [a; b])) by set_solver.
    rewrite (bool_decide_eq_false_2 (a ∈ [b; c])) by set_solver.
    rewrite (bool_decide_eq_false_2 (c ∈ [a; b])) by set_solver.
    rewrite (bool_decide_eq_true_2 (c ∈ [b; c])) by set_solver.
    cbn. done.
Qed.

(** The repositories a/b, e/f and c/d, of which e/f has no manifest, and
    the two manifests with the keys {a, b} and {b, c}. *)
Lemma Extended_counter_sample :
  counter_of Runtime
    (collect (tasks (Samples.extended (@Samples.merge_Slice _)) "tok"
                ["a/b"; "e/f"; "c/d"]) [1; 0; 2]%nat) !! "http" = Some 2
  ∧ counter_of Runtime (collect [Samples.merged_ab; Samples.merged_bc] [1; 0]%nat) !! "b"
    = Some 2
  ∧ counter_of Runtime (collect [Samples.merged_ab; Samples.merged_bc] [1; 0]%nat) !! "a"
    = Some 1
  ∧ counter_of Runtime (collect [Samples.merged_ab; Samples.merged_bc] [1; 0]%nat) !! "c"
    = Some 1.
Proof.
  destruct (Extended_counter_is_number_of_declaring_goroutines
              (tasks (Samples.extended (@Samples.merge_Slice _)) "tok"
                 ["a/b"; "e/f"; "c/d"])
              [1; 0; 2]%nat Runtime "http" empty_counter zero_Pubspec
              Samples.merged_ab Samples.merged_bc
              {| Dependencies := Samples.manifest ["a"; "b"];
                 DevDependencies := None; DependencyOverrides := None |}
              {| Dependencies := Samples.manifest ["b"; "c"];
                 DevDependencies := None; DependencyOverrides := None |}
              [1; 0]%nat "a" "b" "c") as (Hhttp & _ & Hb & Ha & Hc).
  - vm_compute. apply perm_swap.
  - by vm_compute.
  - reflexivity.
  - reflexivity.
  - by vm_compute.
  - vm_compute. apply perm_swap.
  - discriminate.
  - apply perm_swap.
  - split; [|split; [exact Hb|split; [exact Ha|exact Hc]]].
    rewrite Hhttp. by vm_compute.
Defined.

End usage_counters.

(** ** The report *)
Section report.

Import Extended.

Lemma keep_foldl_lookup minUsage (l : list (string * Z)) (final : gmap string Entry) p :
  NoDup l.*1 →
  foldl (keep minUsage) final l !! p =
  match (list_to_map l : gmap string Z) !! p with
  | Some c =>
      if GoInt.ge c minUsage then Some {| count := c; url := package_url p |}
      else final !! p
  | None => final !! p
  end.
Proof.
  revert final. induction l as [|[k c] l IH]; intros final Hnd; [done|].
  cbn [fmap list_fmap fst] in Hnd. apply NoDup_cons in Hnd as [Hk Hnd].
  cbn [foldl]. rewrite list_to_map_cons, IH by done.
  destruct (decide (k = p)) as [->|Hne].
  - rewrite lookup_insert_eq.
    rewrite (not_elem_of_list_to_map_1 l p) by done.
    cbn [keep]. destruct (GoInt.ge c minUsage); [by rewrite lookup_insert_eq|done].
  - rewrite lookup_insert_ne by done.
    assert (keep minUsage final (k, c) !! p = final !! p) as ->; [|done].
    cbn [keep]. destruct (GoInt.ge c minUsage); [by rewrite lookup_insert_ne|done].
Qed.

Lemma filter_section_lookup (m : gmap string Z) minUsage p :
  filter_section m minUsage !! p =
  match m !! p with
  | Some c =>
      if GoInt.ge c minUsage then Some {| count := c; url := package_url p |} else None
  | None => None
  end.
Proof.
  unfold filter_section.
  rewrite keep_foldl_lookup by apply NoDup_fst_map_to_list.
  rewrite list_to_map_to_list, lookup_empty. done.
Qed.

Lemma report_of_finalStats s stats minUsage :
  report_of s (finalStats stats minUsage) = filter_section (counter_of s stats) minUsage.
Proof. by destruct s. Qed.

(** C2.  In each section of the report a package is present exactly when
    its counter is at least [minUsage]; its entry holds that counter and
    the URL https://pub.dev/packages/<name>.  [--min] defaults to 1, and
    the counters {flutter: 3, http: 1} with [minUsage = 2] give a report
    holding flutter alone. *)
Theorem report_keeps_counts_at_least_minUsage
    (stats : counter) (minUsage : Z) (s : section) (p : string) :
  (∀ e, report_of s (finalStats stats minUsage) !! p = Some e ↔
        ∃ c, counter_of s stats !! p = Some c ∧ c >= minUsage ∧
             e = {| count := c; url := "https://pub.dev/packages/" +:+ p |})
  ∧ (is_Some (report_of s (finalStats stats minUsage) !! p) ↔
     ∃ c, counter_of s stats !! p = Some c ∧ c >= minUsage)
  ∧ Extended.minUsage default_Flags = 1
  ∧ filter_section {[ "flutter" := 3; "http" := 1 ]} 2 =
    {[ "flutter" := {| count := 3; url := "https://pub.dev/packages/flutter" |} ]}.
Proof.
  assert (∀ e, report_of s (finalStats stats minUsage) !! p = Some e ↔
        ∃ c, counter_of s stats !! p = Some c ∧ c >= minUsage ∧
             e = {| count := c; url := "https://pub.dev/packages/" +:+ p |}) as Hentry.
  { intros e. rewrite report_of_finalStats, filter_section_lookup.
    destruct (counter_of s stats !! p) as [c|] eqn:Hc.
    - unfold GoInt.ge. case_bool_decide as Hge.
      + split.
        * intros [= <-]. exists c. split; [done|]. split; [lia|done].
        * intros (c' & [= <-] & _ & ->). done.
      + split; [done|]. intros (c' & [= <-] & ? & _). lia.
    - split; [done|]. by intros (c' & ? & _). }
  split; [exact Hentry|]. split; [|split; [done|]].
  - split.
    + intros [e He]. apply Hentry in He as (c & ? & ? & _). eauto.
    + intros (c & Hc & Hge). eexists. apply Hentry. eauto.
  - apply map_eq. intros q. rewrite filter_section_lookup.
    destruct (decide (q = "flutter")) as [->|Hf]; [done|].
    rewrite lookup_insert_ne by done.
    destruct (decide (q = "http")) as [->|Hh]; [done|].
    by rewrite !lookup_singleton_ne.
Qed.

End report.

(** ** Splitting a repository line *)
Section split.

Implicit Types (s o r : string) (sep : ascii).

Lemma strings_Split_nonempty s sep : strings_Split s sep ≠ [].
Proof.
  destruct s as [|c s]; [done|]. cbn [strings_Split].
  case_decide; [done|]. by destruct (strings_Split s sep).
Qed.

Lemma strings_Split_length s sep :
  length (strings_Split s sep) = S (count_byte sep s).
Proof.
  induction s as [|c s IH]; [done|]. cbn [strings_Split count_byte].
  case_decide.
  - cbn [length]. by rewrite IH.
  - destruct (strings_Split s sep); [done|]. exact IH.
Qed.

Lemma strings_Split_one s sep r :
  strings_Split s sep = [r] ↔ r = s ∧ count_byte sep s = O.
Proof.
  revert r. induction s as [|c s IH]; intros r.
  - cbn. split; [by intros [= <-]|by intros [-> _]].
  - cbn [strings_Split count_byte]. case_decide as Hc.
    + split; [|intros [_ ?]; lia].
      intros [= _ H]. by apply strings_Split_nonempty in H.
    + destruct (strings_Split s sep) as [|part parts] eqn:Hs;
        [by apply strings_Split_nonempty in Hs|].
      split.
      * intros [= <- ->]. destruct (IH part) as [[-> ?] _]; done.
      * intros [-> H0]. destruct (IH s) as [_ Hb].
        specialize (Hb (conj eq_refl H0)). by inversion Hb.
Qed.

(** Exactly two parts: one separator, between them. *)
Lemma strings_Split_two s sep o r :
  strings_Split s sep = [o; r] ↔
  s = o +:+ String sep r ∧ count_byte sep o = O ∧ count_byte sep r = O.
Proof.
  revert o. induction s as [|c s IH]; intros o.
  - cbn. split; [done|]. intros [H _]. by destruct o.
  - cbn [strings_Split]. case_decide as Hc.
    + subst c. split.
      * intros [= <- H]. apply strings_Split_one in H as [-> ?]. done.
      * intros (Hs & Ho & Hr). destruct o as [|c' o'].
        -- cbn in Hs. injection Hs as ->. f_equal. by apply strings_Split_one.
        -- cbn in Hs. injection Hs as <- _. cbn in Ho.
           rewrite decide_True in Ho by done. lia.
    + destruct (strings_Split s sep) as [|part parts] eqn:Hs;
        [by apply strings_Split_nonempty in Hs|].
      split.
      * intros [= <- ->]. destruct (IH part) as [(-> & ? & ?) _]; [done|].
        cbn. rewrite decide_False by done. done.
      * intros (Hsp & Ho & Hr). destruct o as [|c' o'].
        { cbn in Hsp. injection Hsp as -> _. done. }
        cbn in Hsp. injection Hsp as <- ->. cbn in Ho.
        rewrite decide_False in Ho by done.
        destruct (IH o') as [_ Hb]. specialize (Hb (conj eq_refl (conj Ho Hr))).
        by inversion Hb.
Qed.

Lemma count_byte_app c s1 s2 :
  count_byte c (s1 +:+ s2) = (count_byte c s1 + count_byte c s2)%nat.
Proof.
  induction s1 as [|x s1 IH]; [done|].
  change (String x s1 +:+ s2) with (String x (s1 +:+ s2)).
  cbn [count_byte]. rewrite IH. lia.
Qed.

(** Two parts exactly when the line holds one slash. *)
Lemma strings_Split_two_count s sep :
  (∃ o r, strings_Split s sep = [o; r]) ↔ count_byte sep s = 1%nat.
Proof.
  pose proof (strings_Split_length s sep) as Hlen. split.
  - intros (o & r & H). rewrite H in Hlen. cbn in Hlen. lia.
  - intros H1. rewrite H1 in Hlen.
    destruct (strings_Split s sep) as [|o [|r [|? ?]]]; try done. eauto.
Qed.

End split.

(** ** Which lines are fetched *)
Section repository_lines.

Lemma Minimal_splitRepo_two line owner repo :
  strings_Split line slash = [owner; repo] →
  Minimal.splitRepo line = (owner, repo, true).
Proof. unfold Minimal.splitRepo. by intros ->. Qed.

Lemma Minimal_splitRepo_other line :
  count_byte slash line ≠ 1%nat → Minimal.splitRepo line = ("", "", false).
Proof.
  intros Hc. unfold Minimal.splitRepo.
  destruct (strings_Split line slash) as [|o [|r [|? ?]]] eqn:Hs; try done.
  exfalso. apply Hc. apply strings_Split_two_count. eauto.
Qed.

Lemma Extended_task_other w token total i line :
  count_byte slash line ≠ 1%nat →
  Extended.task w token total i line = Extended.invalid total i line.
Proof.
  intros Hc. unfold Extended.task.
  destruct (strings_Split line slash) as [|o [|r [|? ?]]] eqn:Hs; try done.
  exfalso. apply Hc. apply strings_Split_two_count. eauto.
Qed.

(** C6 (amended).  A line is fetched exactly when it holds one slash:
    [strings.Split] then yields the two parts around it, either of which
    may be empty, and the goroutine goes on to the hosting API with them.
    Any other line is reported as an invalid repo format, sends no
    request and leaves the counters alone. *)
Theorem line_is_fetched_iff_it_has_one_slash
    (wm : Minimal.World) (we : Extended.World) (token : string) (total i : nat)
    (line : string) :
  if decide (count_byte slash line = 1%nat) then
    ∃ owner repo,
      line = owner +:+ "/" +:+ repo ∧
      count_byte slash owner = O ∧ count_byte slash repo = O ∧
      Minimal.splitRepo line = (owner, repo, true) ∧
      Minimal.task wm line = Minimal.fetch wm line owner repo ∧
      Minimal.t_calls (Minimal.task wm line) =
        [{| Minimal.c_owner := owner; Minimal.c_repo := repo;
            Minimal.c_path := "pubspec.yaml" |}] ∧
      Extended.task we token total i line =
        Extended.fetch we token total i line owner repo
  else
    Minimal.splitRepo line = ("", "", false) ∧
    Minimal.task wm line =
      {| Minimal.t_log := ["invalid repo format: " +:+ line];
         Minimal.t_calls := []; Minimal.t_outcome := Minimal.Skipped |} ∧
    Extended.task we token total i line =
      {| Extended.t_log := [Extended.processing total i line;
                            "Invalid repo format: " +:+ line];
         Extended.t_calls := []; Extended.t_outcome := Extended.Skipped |} ∧
    (∀ allDeps, Minimal.apply_outcome allDeps
                  (Minimal.t_outcome (Minimal.task wm line)) = allDeps) ∧
    (∀ stats, Extended.apply_outcome stats
                (Extended.t_outcome (Extended.task we token total i line)) = stats).
Proof.
  case_decide as Hc.
  - apply strings_Split_two_count in Hc as (owner & repo & Hs).
    exists owner, repo.
    pose proof (proj1 (strings_Split_two _ _ _ _) Hs) as (Hl & Ho & Hr).
    pose proof (Minimal_splitRepo_two _ _ _ Hs) as Hm.
    assert (Minimal.task wm line = Minimal.fetch wm line owner repo) as Ht.
    { unfold Minimal.task. by rewrite Hm. }
    repeat split; try done.
    + rewrite Ht. unfold Minimal.fetch.
      destruct (Minimal.GetContents wm owner repo "pubspec.yaml") as [[content|]|e]; try done.
      destruct (Minimal.GetContent wm content) as [data|e]; try done.
      by destruct (Minimal.extractDependencies wm data).
    + unfold Extended.task. by rewrite Hs.
  - pose proof (Minimal_splitRepo_other _ Hc) as Hm.
    pose proof (Extended_task_other we token total i _ Hc) as He.
    assert (Minimal.task wm line = Minimal.invalid line) as Ht.
    { unfold Minimal.task. by rewrite Hm. }
    rewrite Ht, He. done.
Qed.

(** C6 as stated fails: the line "a/" has an empty second part, and both
    programs go on to the hosting API with it. *)
Lemma line_with_empty_name_is_fetched :
  ¬ spec_owner_name "a/"
  ∧ Minimal.splitRepo "a/" = ("a", "", true)
  ∧ Minimal.t_calls (Minimal.task Samples.minimal "a/") =
      [{| Minimal.c_owner := "a"; Minimal.c_repo := "";
          Minimal.c_path := "pubspec.yaml" |}]
  ∧ Extended.t_calls
      (Extended.task (Samples.extended (@Samples.merge_Slice _)) "tok" 1 0 "a/") =
      [{| Extended.req_url := "https://api.github.com/repos/a//branches";
          Extended.req_Authorization := "token tok" |}].
Proof.
  split; [|by vm_compute].
  intros (owner & name & Hl & _ & Hname & Ho & Hn).
  assert (strings_Split "a/" slash = [owner; name]) as Hs.
  { apply strings_Split_two. done. }
  vm_compute in Hs. congruence.
Qed.

End repository_lines.

(** ** Branch selection *)
Section branch_selection.

Import Extended.

Lemma not_older_le (x y : Branch) : not_older x y ↔ Date y ≤ Date x.
Proof.
  unfold not_older, newer, After. case_bool_decide; cbn; split; try done; lia.
Qed.

#[local] Instance not_older_trans : Transitive not_older.
Proof. intros x y z. rewrite !not_older_le. lia. Qed.

#[local] Instance not_older_total : Total not_older.
Proof. intros x y. rewrite !not_older_le. lia. Qed.

(** The head of a slice sorted by [newer] is as late as any element. *)
Lemma sorted_head_latest (sort : (Branch → Branch → bool) → list Branch → list Branch)
    (l : list Branch) (b : Branch) (rest : list Branch) :
  sort_Slice_contract sort → sort newer l = b :: rest →
  b ∈ l ∧ ∀ b', b' ∈ l → Date b' ≤ Date b.
Proof.
  intros Hc Hs. destruct (Hc l) as [Hperm Hsorted]. rewrite Hs in Hperm, Hsorted.
  split; [rewrite <- Hperm; left|].
  intros b' Hb'. rewrite <- Hperm in Hb'.
  apply StronglySorted_inv in Hsorted as [_ Hall].
  apply elem_of_cons in Hb' as [->|Hb']; [lia|].
  rewrite Forall_forall in Hall. apply not_older_le, Hall. done.
Qed.

Lemma sorted_nonempty (sort : (Branch → Branch → bool) → list Branch → list Branch)
    (l : list Branch) :
  sort_Slice_contract sort → l ≠ [] → sort newer l ≠ [].
Proof.
  intros Hc Hl Hs. destruct (Hc l) as [Hperm _]. rewrite Hs in Hperm.
  by apply Permutation_nil_l in Hperm.
Qed.

Lemma merge_Slice_contract : sort_Slice_contract (@Samples.merge_Slice Branch).
Proof.
  intros l. unfold Samples.merge_Slice. split.
  - apply merge_sort_Permutation.
  - apply (StronglySorted_merge_sort not_older).
Qed.

Lemma backward_Slice_contract : sort_Slice_contract (@Samples.backward_Slice Branch).
Proof.
  intros l. unfold Samples.backward_Slice. split.
  - by rewrite merge_sort_Permutation, reverse_Permutation.
  - apply (StronglySorted_merge_sort not_older).
Qed.

(** C5 (amended).  When the branch list arrives and is not empty,
    [getLatestBranch] returns the name of a listed branch that no listed
    branch is later than, so the one with the strictly latest author date
    when there is one; which of several branches sharing the latest date
    it names is left to [sort.Slice].  It fails on a transport error, on
    a status other than 200, on an undecodable body and on an empty
    list. *)
Theorem getLatestBranch_returns_a_latest_branch
    (w : World) (owner repo token : string) :
  sort_Slice_contract (sort_Slice w) →
  url_Parse_ok w (branches_url owner repo) = true →
  match client_Do w {| req_url := branches_url owner repo;
                       req_Authorization := "token " +:+ token |} with
  | Err e => snd (getLatestBranch w owner repo token) = Error e
  | Ok resp =>
      if bool_decide (StatusCode resp = 200) then
        match json_Decode_branches w (Body resp) with
        | Err e => snd (getLatestBranch w owner repo token) = Error e
        | Ok [] => snd (getLatestBranch w owner repo token) = Error "no branches found"
        | Ok branches =>
            ∃ b, snd (getLatestBranch w owner repo token) = Val (Name b) ∧
                 b ∈ branches ∧
                 (∀ b', b' ∈ branches → Date b' ≤ Date b) ∧
                 (∀ b0, b0 ∈ branches →
                        (∀ b', b' ∈ branches → b' ≠ b0 → Date b' < Date b0) →
                        b = b0)
        end
      else ∃ e, snd (getLatestBranch w owner repo token) = Error e
  end.
Proof.
  intros Hc Hurl. unfold getLatestBranch, http_NewRequest. rewrite Hurl.
  unfold set_Authorization. cbn [req_url].
  destruct (client_Do w _) as [resp|e]; [|done].
  destruct (decide (StatusCode resp = 200)) as [H200|H200].
  - rewrite (bool_decide_eq_true_2 _ H200).
    rewrite bool_decide_eq_false_2 by (by intros ?).
    destruct (json_Decode_branches w (Body resp)) as [branches|e]; [|done].
    destruct branches as [|b1 bs]; [done|].
    rewrite bool_decide_eq_false_2 by done.
    destruct (sort_Slice w newer (b1 :: bs)) as [|b rest] eqn:Hs.
    { by apply sorted_nonempty in Hs. }
    destruct (sorted_head_latest _ _ _ _ Hc Hs) as [Hin Hmax].
    exists b. repeat split; try done.
    intros b0 Hb0 Hstrict. destruct (decide (b = b0)) as [|Hne]; [done|].
    specialize (Hstrict b Hin Hne). specialize (Hmax b0 Hb0). lia.
  - rewrite (bool_decide_eq_false_2 _ H200).
    rewrite bool_decide_eq_true_2 by done. eauto.
Qed.

(** The dates 2023-01-01, 2024-06-01 and 2023-12-31 select the branch
    dated 2024-06-01. *)
Lemma getLatestBranch_three_branches :
  sort_Slice_contract (sort_Slice (Samples.extended (@Samples.merge_Slice Branch)))
  ∧ ∃ b, snd (getLatestBranch (Samples.extended (@Samples.merge_Slice Branch))
                "a" "b" "tok") = Val (Name b)
         ∧ b ∈ Samples.three_branches
         ∧ Name b = "main" ∧ Date b = Samples.date_2024_06_01.
Proof.
  split; [exact merge_Slice_contract|].
  pose proof (getLatestBranch_returns_a_latest_branch
                (Samples.extended (@Samples.merge_Slice Branch)) "a" "b" "tok"
                merge_Slice_contract eq_refl) as H.
  cbn in H. destruct H as (b & Hret & Hin & _ & _).
  exists b. split; [exact Hret|]. split; [exact Hin|].
  vm_compute in Hret. injection Hret as Hname. split; [done|].
  vm_compute in Hin.
  repeat (apply elem_of_cons in Hin as [->|Hin]; [try done|]);
  by apply elem_of_nil in Hin.
Defined.

(** C5 as stated fails: with thirteen branches of which the second and
    the last share the latest date, a sort that keeps what [sort.Slice]
    promises makes [getLatestBranch] name the last one, not the one listed
    first; another such sort makes it name the second. *)
Lemma getLatestBranch_tie_not_first_seen :
  sort_Slice_contract (sort_Slice (Samples.extended (@Samples.merge_Slice Branch)))
  ∧ sort_Slice_contract (sort_Slice (Samples.extended (@Samples.backward_Slice Branch)))
  ∧ json_Decode_branches (Samples.extended (@Samples.merge_Slice Branch)) "thirteen"
    = Ok Samples.thirteen_branches
  ∧ Name <$> spec_latest Samples.thirteen_branches = Some "b1"
  ∧ snd (getLatestBranch (Samples.extended (@Samples.merge_Slice Branch)) "m" "n" "tok")
    = Val "b12"
  ∧ snd (getLatestBranch (Samples.extended (@Samples.backward_Slice Branch)) "m" "n" "tok")
    = Val "b1".
Proof.
  split; [exact merge_Slice_contract|].
  split; [exact backward_Slice_contract|]. by vm_compute.
Qed.

End branch_selection.

(** ** Configuration errors *)
Section configuration.

(** C7 (amended).  When a required flag is missing or no token is found,
    neither program sends a request or writes a report, and each prints a
    message.  The minimal program then exits with status 1; cmd/main.go
    returns from [main], which ends the process with status 0.  For
    cmd/main.go the token is missing when GITHUB_TOKEN is empty once the
    env file has been loaded into the environment. *)
Theorem configuration_error_stops_before_any_request
    (we : Extended.World) (fe : Extended.Flags)
    (wm : Minimal.World) (fm : Minimal.Flags) (order : list nat) :
  Extended.helpFlag fe = false →
  Minimal.help fm = false →
  (Extended.envPath fe = "" ∨ Extended.reposPath fe = "" ∨ Extended.outPath fe = ""
   ∨ Extended.load_token we (Extended.envPath fe) = "") →
  (Minimal.reposFile fm = "" ∨ Minimal.outFile fm = "" ∨ Minimal.envFile fm = ""
   ∨ (∃ e, Minimal.readEnvToken wm (Minimal.envFile fm) = Err e)
   ∨ Minimal.readEnvToken wm (Minimal.envFile fm) = Ok "") →
  (Extended.r_stdout (Extended.main we fe order) ≠ []
   ∧ Extended.network_calls (Extended.main we fe order) = []
   ∧ Extended.r_written (Extended.main we fe order) = None
   ∧ Extended.r_exit (Extended.main we fe order) = 0)
  ∧ (Minimal.r_output (Minimal.main wm fm order) ≠ []
     ∧ Minimal.network_calls (Minimal.main wm fm order) = []
     ∧ Minimal.r_written (Minimal.main wm fm order) = None
     ∧ Minimal.r_exit (Minimal.main wm fm order) = 1).
Proof.
  intros Hhe Hhm He Hm. split.
  - unfold Extended.main. rewrite Hhe.
    case_bool_decide as Hflags; [done|].
    case_bool_decide as Htok; [done|].
    exfalso. destruct He as [?|[?|[?|?]]]; [apply Hflags; auto..|done].
  - unfold Minimal.main. rewrite Hhm.
    case_bool_decide as Hflags; [done|].
    destruct Hm as [?|[?|[?|[[e Hm]|Hm]]]]; [exfalso; apply Hflags; auto..| |];
      rewrite Hm; done.
Qed.

Lemma configuration_error_sample :
  (Extended.r_stdout (Extended.main (Samples.extended (@Samples.merge_Slice _))
                        Extended.default_Flags []) ≠ []
   ∧ Extended.network_calls (Extended.main (Samples.extended (@Samples.merge_Slice _))
                               Extended.default_Flags []) = []
   ∧ Extended.r_written (Extended.main (Samples.extended (@Samples.merge_Slice _))
                           Extended.default_Flags []) = None
   ∧ Extended.r_exit (Extended.main (Samples.extended (@Samples.merge_Slice _))
                        Extended.default_Flags []) = 0)
  ∧ (Minimal.r_output (Minimal.main Samples.minimal Minimal.default_Flags []) ≠ []
     ∧ Minimal.network_calls (Minimal.main Samples.minimal Minimal.default_Flags []) = []
     ∧ Minimal.r_written (Minimal.main Samples.minimal Minimal.default_Flags []) = None
     ∧ Minimal.r_exit (Minimal.main Samples.minimal Minimal.default_Flags []) = 1).
Proof.
  apply (configuration_error_stops_before_any_request
           (Samples.extended (@Samples.merge_Slice _)) Extended.default_Flags
           Samples.minimal Minimal.default_Flags []).
  - reflexivity.
  - reflexivity.
  - left. reflexivity.
  - left. reflexivity.
Defined.

(** C7 as stated fails: run without any flag, cmd/main.go prints its
    message and ends with status 0. *)
Lemma missing_flags_exit_zero :
  Extended.envPath Extended.default_Flags = ""
  ∧ Extended.main (Samples.extended (@Samples.merge_Slice _)) Extended.default_Flags [] =
      {| Extended.r_stdout := ["Missing required arguments. Use --help for usage."];
         Extended.r_tasks := []; Extended.r_written := None; Extended.r_exit := 0 |}.
Proof. by vm_compute. Qed.

End configuration.

(** ** Manifests that do not decode *)
Section decode_errors.

Lemma Extended_merge_zero (stats : Extended.counter) :
  Extended.merge stats Extended.zero_Pubspec = stats.
Proof. by destruct stats. Qed.

(** C4 (amended).  In the minimal program a decoder error makes
    [extractDependencies] fail with it; the goroutine logs "failed to
    parse yaml" and leaves [allDeps] alone.  In cmd/main.go
    [parsePubspec] drops the decoder's error: the goroutine logs nothing
    about it and merges whatever the decoder left in the struct, which
    is nothing when the struct is still at its zero value. *)
Theorem yaml_error_skips_in_minimal_and_is_dropped_in_extended
    (wm : Minimal.World) (we : Extended.World) (data : string) (e : error)
    (r owner repo : string) (content : Minimal.RepositoryContent)
    (token full : string) (total i : nat) (branch : string)
    (c1 c2 : list Extended.Request) :
  snd (Minimal.yaml_Unmarshal wm data Minimal.zero_Pubspec) = Some e →
  Minimal.GetContents wm owner repo "pubspec.yaml" = Ok (Some content) →
  Minimal.GetContent wm content = Ok data →
  Extended.getLatestBranch we owner repo token = (c1, Extended.Val branch) →
  Extended.getPubspec we owner repo branch token = (c2, Extended.Val data) →
  (Minimal.extractDependencies wm data = Err e
   ∧ Minimal.fetch wm r owner repo =
       {| Minimal.t_log := ["[" +:+ r +:+ "] failed to parse yaml: " +:+ e];
          Minimal.t_calls := [{| Minimal.c_owner := owner; Minimal.c_repo := repo;
                                 Minimal.c_path := "pubspec.yaml" |}];
          Minimal.t_outcome := Minimal.Skipped |}
   ∧ ∀ allDeps, Minimal.apply_outcome allDeps
                  (Minimal.t_outcome (Minimal.fetch wm r owner repo)) = allDeps)
  ∧ (Extended.parsePubspec we data =
       fst (Extended.yaml_Unmarshal we data Extended.zero_Pubspec)
     ∧ Extended.fetch we token total i full owner repo =
         {| Extended.t_log := [Extended.processing total i full];
            Extended.t_calls := c1 ++ c2;
            Extended.t_outcome := Extended.Merged (Extended.parsePubspec we data) |}
     ∧ (∀ stats s,
         Extended.counter_of s
           (Extended.apply_outcome stats
              (Extended.t_outcome (Extended.fetch we token total i full owner repo))) =
         incr_all (Extended.counter_of s stats)
           (range_keys (Extended.section_of s (Extended.parsePubspec we data))))
     ∧ (∀ stats, Extended.merge stats Extended.zero_Pubspec = stats)).
Proof.
  intros Hy Hc Hg Hb Hp.
  assert (Minimal.extractDependencies wm data = Err e) as Hx.
  { unfold Minimal.extractDependencies.
    destruct (Minimal.yaml_Unmarshal wm data Minimal.zero_Pubspec) as [p o].
    cbn in Hy. by subst o. }
  assert (Minimal.fetch wm r owner repo =
       {| Minimal.t_log := ["[" +:+ r +:+ "] failed to parse yaml: " +:+ e];
          Minimal.t_calls := [{| Minimal.c_owner := owner; Minimal.c_repo := repo;
                                 Minimal.c_path := "pubspec.yaml" |}];
          Minimal.t_outcome := Minimal.Skipped |}) as Hf.
  { unfold Minimal.fetch. by rewrite Hc, Hg, Hx. }
  assert (Extended.fetch we token total i full owner repo =
         {| Extended.t_log := [Extended.processing total i full];
            Extended.t_calls := c1 ++ c2;
            Extended.t_outcome := Extended.Merged (Extended.parsePubspec we data) |}) as He.
  { unfold Extended.fetch. by rewrite Hb, Hp. }
  split; [split; [done|split; [done|]]|split; [done|split; [done|split]]].
  - intros allDeps. by rewrite Hf.
  - intros stats s. rewrite He. cbn [Extended.t_outcome Extended.apply_outcome].
    apply counter_of_merge.
  - apply Extended_merge_zero.
Qed.

Lemma yaml_error_sample :
  snd (Minimal.yaml_Unmarshal Samples.minimal "M3" Minimal.zero_Pubspec) =
    Some "yaml: did not find expected key"
  ∧ Minimal.fetch Samples.minimal "g/h" "g" "h" =
      {| Minimal.t_log := ["[g/h] failed to parse yaml: yaml: did not find expected key"];
         Minimal.t_calls := [{| Minimal.c_owner := "g"; Minimal.c_repo := "h";
                                Minimal.c_path := "pubspec.yaml" |}];
         Minimal.t_outcome := Minimal.Skipped |}
  ∧ Extended.t_log
      (Extended.fetch (Samples.extended (@Samples.merge_Slice _)) "tok" 1 0 "g/h" "g" "h")
    = ["[1/1] Processing g/h..."].
Proof.
  pose proof (yaml_error_skips_in_minimal_and_is_dropped_in_extended
                Samples.minimal (Samples.extended (@Samples.merge_Slice _))
                "M3" "yaml: did not find expected key" "g/h" "g" "h"
                {| Minimal.Encoding := "base64"; Minimal.Content := "M3" |}
                "tok" "g/h" 1 0 "main"
                [{| Extended.req_url := Extended.branches_url "g" "h";
                    Extended.req_Authorization := "token tok" |}]
                [{| Extended.req_url := Extended.pubspec_url "g" "h" "main";
                    Extended.req_Authorization := "token tok" |}]
                eq_refl eq_refl eq_refl eq_refl eq_refl)
    as [(_ & Hm & _) (_ & He & _)].
  split; [reflexivity|]. split; [exact Hm|]. by rewrite He.
Defined.

(** C4 as stated fails in cmd/main.go: for a manifest the decoder
    rejects, the goroutine prints no failure, is not skipped, and the
    counters grow by what was decoded before the error; for one that is
    not YAML at all it is not skipped either. *)
Lemma rejected_manifest_is_merged :
  snd (Extended.yaml_Unmarshal (Samples.extended (@Samples.merge_Slice _)) "M3"
         Extended.zero_Pubspec) =
    Some "yaml: unmarshal errors: cannot unmarshal !!seq into map[string]interface {}"
  ∧ Extended.t_log
      (Extended.task (Samples.extended (@Samples.merge_Slice _)) "tok" 1 0 "g/h")
    = ["[1/1] Processing g/h..."]
  ∧ Extended.t_outcome
      (Extended.task (Samples.extended (@Samples.merge_Slice _)) "tok" 1 0 "g/h")
    = Extended.Merged
        {| Extended.Dependencies := None;
           Extended.DevDependencies := Samples.manifest ["lints"];
           Extended.DependencyOverrides := None |}
  ∧ Extended.devDeps
      (Extended.collect
         (Extended.tasks (Samples.extended (@Samples.merge_Slice _)) "tok" ["g/h"])
         [0%nat]) !! "lints" = Some 1
  ∧ snd (Extended.yaml_Unmarshal (Samples.extended (@Samples.merge_Slice _)) "M4"
           Extended.zero_Pubspec) = Some "yaml: did not find expected key"
  ∧ Extended.task (Samples.extended (@Samples.merge_Slice _)) "tok" 1 0 "k/l" =
      {| Extended.t_log := ["[1/1] Processing k/l..."];
         Extended.t_calls :=
           [{| Extended.req_url := "https://api.github.com/repos/k/l/branches";
               Extended.req_Authorization := "token tok" |};
            {| Extended.req_url :=
                 "https://api.github.com/repos/k/l/contents/pubspec.yaml?ref=main";
               Extended.req_Authorization := "token tok" |}];
         Extended.t_outcome := Extended.Merged Extended.zero_Pubspec |}.
Proof. by vm_compute. Qed.

End decode_errors.

(** ** The flat counter of the minimal program *)
Section flat_counter.

Lemma occ_range_keys {V} (m : gomap V) p :
  occ p (range_keys m) = if decide (p ∈ range_keys m) then 1%nat else O.
Proof. apply occ_NoDup, range_keys_NoDup. Qed.

End flat_counter.

(** ** The goroutines, [sem] and [mu] *)
Section pool.

Import Pool.

Context {S : Type} (body : nat → S → S).

Implicit Types (l : list pc) (st : state S).

Lemma count_cons (f : pc → bool) p l :
  length (filter (λ q, f q) (p :: l)) = (b2n (f p) + length (filter (λ q, f q) l))%nat.
Proof. rewrite filter_cons. destruct (f p); by case_decide. Qed.

(** Replacing one goroutine's position changes a count by that position. *)
Lemma count_insert (f : pc → bool) l (i : nat) p q :
  l !! i = Some p →
  (length (filter (λ x, f x) (<[i := q]> l)) + b2n (f p) =
   length (filter (λ x, f x) l) + b2n (f q))%nat.
Proof.
  revert i. induction l as [|x l IH]; intros i Hi; [done|].
  destruct i as [|i].
  - cbn in Hi. injection Hi as ->.
    change (<[0%nat := q]> (p :: l)) with (q :: l).
    rewrite !count_cons. lia.
  - cbn in Hi.
    change (<[Datatypes.S i := q]> (x :: l)) with (x :: <[i := q]> l).
    rewrite !count_cons. specialize (IH i Hi). lia.
Qed.

Lemma slots_held_init n cap (s0 : S) : slots_held (init n cap s0).
Proof.
  unfold slots_held, in_flight, init. cbn. split; [|lia].
  induction n as [|n IH]; [done|]. cbn [replicate]. by rewrite count_cons.
Qed.

Lemma slots_held_step st st' : slots_held st → step body st st' → slots_held st'.
Proof.
  intros [Hfl Hcap] Hstep. unfold slots_held, in_flight in *.
  destruct Hstep as [st i Hi Hroom|st i Hi|st i Hi Hsome]; cbn.
  - pose proof (count_insert holds_slot _ _ _ InFlight Hi) as H. cbn in H. lia.
  - pose proof (count_insert holds_slot _ _ _ Merged Hi) as H. cbn in H. lia.
  - pose proof (count_insert holds_slot _ _ _ Returned Hi) as H. cbn in H. lia.
Qed.

Lemma step_sem_cap st st' : step body st st' → sem_cap st' = sem_cap st.
Proof. by destruct 1. Qed.

Lemma reachable_slots_held s0 st :
  slots_held s0 → reachable body s0 st → slots_held st ∧ sem_cap st = sem_cap s0.
Proof.
  intros H0. induction 1 as [|st st' _ [IH Hcap] Hstep]; [done|].
  split; [by eapply slots_held_step|]. by rewrite (step_sem_cap _ _ Hstep).
Qed.

Lemma in_flight_bounded n cap (s0 : S) st :
  reachable body (init n cap s0) st → (in_flight st ≤ cap)%nat.
Proof.
  intros Hr. destruct (reachable_slots_held _ _ (slots_held_init n cap s0) Hr)
    as [[Hfl Hle] Hcap].
  cbn in Hcap. lia.
Qed.

Lemma lookup_insert_pc l (i j : nat) p q :
  l !! i = Some p →
  <[i := q]> l !! j = if decide (i = j) then Some q else l !! j.
Proof.
  intros Hi. case_decide as Hij.
  - subst j. apply list_lookup_insert_eq. by eapply lookup_lt_Some.
  - by apply list_lookup_insert_ne.
Qed.

Lemma merged_in_order_step s0 st st' :
  merged_in_order body s0 st → step body st st' → merged_in_order body s0 st'.
Proof.
  intros (Hsh & Hnd & Hin) Hstep.
  destruct Hstep as [st i Hi Hroom|st i Hi|st i Hi Hsome];
    unfold merged_in_order; cbn [shared passed procs].
  - split; [done|]. split; [done|]. intros j.
    rewrite (lookup_insert_pc _ _ _ _ InFlight Hi), Hin. case_decide as Hij; [|done].
    subst j. rewrite Hi. split; intros (p & [= <-] & Hp); done.
  - assert (i ∉ passed st) as Hni.
    { rewrite Hin, Hi. by intros (p & [= <-] & ?). }
    split; [by rewrite foldl_app, <- Hsh|]. split.
    + apply NoDup_app. split; [done|]. split; [|apply NoDup_singleton].
      intros x Hx ->%list_elem_of_singleton. done.
    + intros j. rewrite (lookup_insert_pc _ _ _ _ Merged Hi), elem_of_app, Hin.
      rewrite list_elem_of_singleton. case_decide as Hij.
      * subst j. split; [by exists Merged|by right].
      * split; [intros [?|?]; [done|congruence]|by left].
  - split; [done|]. split; [done|]. intros j.
    rewrite (lookup_insert_pc _ _ _ _ Returned Hi), Hin. case_decide as Hij; [|done].
    subst j. rewrite Hi. split; [by exists Returned|by exists Merged].
Qed.

Lemma merged_in_order_init n cap (s0 : S) : merged_in_order body s0 (init n cap s0).
Proof.
  split; [done|]. split; [constructor|]. intros i. cbn. split.
  - by intros ?%elem_of_nil.
  - intros (p & Hp & Hpast). apply lookup_replicate in Hp as [-> _]. done.
Qed.

Lemma step_length st st' : step body st st' → length (procs st') = length (procs st).
Proof. destruct 1; cbn; by rewrite length_insert. Qed.

Lemma reachable_merged_in_order n cap (s0 : S) st :
  reachable body (init n cap s0) st →
  merged_in_order body s0 st ∧ length (procs st) = n.
Proof.
  induction 1 as [|st st' _ [IH Hlen] Hstep].
  - split; [apply merged_in_order_init|]. cbn. apply length_replicate.
  - split; [by eapply merged_in_order_step|]. by rewrite (step_length _ _ Hstep).
Qed.

(** Once every goroutine has returned, the shared state is what the
    goroutines made of it one after the other, each exactly once, in the
    order they took the mutex. *)
Lemma all_returned_merged_once n cap (s0 : S) st :
  reachable body (init n cap s0) st → all_returned st →
  passed st ≡ₚ seq 0 n ∧ shared st = foldl (λ s i, body i s) s0 (passed st).
Proof.
  intros Hr Hall. destruct (reachable_merged_in_order _ _ _ _ Hr)
    as [(Hsh & Hnd & Hin) Hlen].
  split; [|done]. apply NoDup_Permutation; [done|apply NoDup_seq|].
  intros i. rewrite Hin, elem_of_seq. split.
  - intros (p & Hp & _). apply lookup_lt_Some in Hp. lia.
  - intros [_ Hlt]. destruct (lookup_lt_is_Some_2 (procs st) i) as [p Hp]; [lia|].
    exists p. split; [done|]. unfold all_returned in Hall.
    rewrite Forall_forall in Hall. rewrite (Hall p); [done|].
    by eapply list_elem_of_lookup_2.
Qed.

End pool.

Section pool_of_the_programs.

Import Pool.

(** When [wg.Wait()] returns in cmd/main.go, the counters are those of
    [collect] for the order in which the goroutines took the mutex, and
    every goroutine took its turn once. *)
Lemma Extended_wait_returns_collect (rs : list Extended.task_result) (st : state Extended.counter) :
  reachable (Extended.locked rs)
    (init (length rs) (Z.to_nat Extended_sem_cap) Extended.empty_counter) st →
  all_returned st →
  passed st ≡ₚ seq 0 (length rs) ∧ shared st = Extended.collect rs (passed st).
Proof. apply all_returned_merged_once. Qed.

Lemma Minimal_wait_returns_collect (flags : Minimal.Flags)
    (rs : list Minimal.task_result) (st : state (gmap string Z)) :
  reachable (Minimal.locked rs)
    (init (length rs) (Z.to_nat (Minimal_sem_cap flags)) ∅) st →
  all_returned st →
  passed st ≡ₚ seq 0 (length rs) ∧ shared st = Minimal.collect rs (passed st).
Proof. apply all_returned_merged_once. Qed.

(** Six goroutines and five slots: five sends go through, the sixth
    goroutine waits. *)
Lemma five_of_six_in_flight {S : Type} (body : nat → S → S) (s0 : S) :
  reachable body (init 6 5 s0)
    {| sem_len := 5; sem_cap := 5;
       procs := [InFlight; InFlight; InFlight; InFlight; InFlight; AtSend];
       shared := s0; passed := [] |}.
Proof.
  pose (st := λ (k : nat) (l : list pc),
          {| sem_len := k; sem_cap := 5; procs := l; shared := s0; passed := [] |}).
  assert (step body (init 6 5 s0)
            (st 1%nat [InFlight; AtSend; AtSend; AtSend; AtSend; AtSend])) as H1.
  { apply (step_send body (init 6 5 s0) 0); [reflexivity|cbn; lia]. }
  assert (step body (st 1%nat [InFlight; AtSend; AtSend; AtSend; AtSend; AtSend])
            (st 2%nat [InFlight; InFlight; AtSend; AtSend; AtSend; AtSend])) as H2.
  { apply (step_send body (st 1%nat [InFlight; AtSend; AtSend; AtSend; AtSend; AtSend]) 1); [reflexivity|cbn; lia]. }
  assert (step body (st 2%nat [InFlight; InFlight; AtSend; AtSend; AtSend; AtSend])
            (st 3%nat [InFlight; InFlight; InFlight; AtSend; AtSend; AtSend])) as H3.
  { apply (step_send body (st 2%nat [InFlight; InFlight; AtSend; AtSend; AtSend; AtSend]) 2); [reflexivity|cbn; lia]. }
  assert (step body (st 3%nat [InFlight; InFlight; InFlight; AtSend; AtSend; AtSend])
            (st 4%nat [InFlight; InFlight; InFlight; InFlight; AtSend; AtSend])) as H4.
  { apply (step_send body (st 3%nat [InFlight; InFlight; InFlight; AtSend; AtSend; AtSend]) 3); [reflexivity|cbn; lia]. }
  assert (step body (st 4%nat [InFlight; InFlight; InFlight; InFlight; AtSend; AtSend])
            (st 5%nat [InFlight; InFlight; InFlight; InFlight; InFlight; AtSend])) as H5.
  { apply (step_send body (st 4%nat [InFlight; InFlight; InFlight; InFlight; AtSend; AtSend]) 4); [reflexivity|cbn; lia]. }
  eapply reach_step; [|exact H5]. eapply reach_step; [|exact H4].
  eapply reach_step; [|exact H3]. eapply reach_step; [|exact H2].
  eapply reach_step; [|exact H1]. apply reach_init.
Qed.

(** C9 (amended).  Whatever the interleaving of the goroutines, the number
    of them between [sem <- struct{}{}] and the deferred [<-sem] never
    exceeds the capacity of [sem]: the value of [--limit] in the minimal
    program, where it defaults to 5, and the constant 5 in cmd/main.go,
    which has no such flag. *)
Theorem at_most_limit_fetches_in_flight
    (flags : Minimal.Flags)
    (rsm : list Minimal.task_result) (rse : list Extended.task_result)
    (stm : state (gmap string Z)) (ste : state Extended.counter) :
  0 ≤ Minimal.limit flags →
  reachable (Minimal.locked rsm)
    (init (length rsm) (Z.to_nat (Minimal_sem_cap flags)) ∅) stm →
  reachable (Extended.locked rse)
    (init (length rse) (Z.to_nat Extended_sem_cap) Extended.empty_counter) ste →
  Z.of_nat (in_flight stm) ≤ Minimal.limit flags
  ∧ Z.of_nat (in_flight ste) ≤ 5
  ∧ Minimal.limit Minimal.default_Flags = 5.
Proof.
  intros Hlim Hm He.
  apply in_flight_bounded in Hm. apply in_flight_bounded in He.
  unfold Minimal_sem_cap, Extended_sem_cap in *. cbn in He.
  split; [lia|]. split; [|done].
  change 5 with (Z.of_nat 5). lia.
Qed.

(** The minimal program with three repositories and [--limit 1]: once the
    first goroutine holds the slot the other two wait.  cmd/main.go with
    six lines: five goroutines hold a slot, the sixth waits. *)
Lemma at_most_limit_sample :
  (reachable (Minimal.locked (Minimal.tasks Samples.minimal ["a/b"; "e/f"; "c/d"]))
     (init 3 1 ∅)
     {| sem_len := 1; sem_cap := 1; procs := [InFlight; AtSend; AtSend];
        shared := ∅; passed := [] |}
   ∧ Z.of_nat (in_flight
        {| sem_len := 1; sem_cap := 1; procs := [InFlight; AtSend; AtSend];
           shared := (∅ : gmap string Z); passed := [] |}) ≤ 1)
  ∧ (reachable (Extended.locked Samples_six)
       (init 6 5 Extended.empty_counter)
       {| sem_len := 5; sem_cap := 5;
          procs := [InFlight; InFlight; InFlight; InFlight; InFlight; AtSend];
          shared := Extended.empty_counter; passed := [] |}
     ∧ Z.of_nat (in_flight
          {| sem_len := 5; sem_cap := 5;
             procs := [InFlight; InFlight; InFlight; InFlight; InFlight; AtSend];
             shared := Extended.empty_counter; passed := [] |}) ≤ 5).
Proof.
  assert (reachable (Minimal.locked (Minimal.tasks Samples.minimal ["a/b"; "e/f"; "c/d"]))
            (init 3 1 ∅)
            {| sem_len := 1; sem_cap := 1; procs := [InFlight; AtSend; AtSend];
               shared := ∅; passed := [] |}) as Hm.
  { eapply reach_step; [apply reach_init|].
    apply (step_send _ (init 3 1 ∅) 0); [reflexivity|cbn; lia]. }
  pose proof (five_of_six_in_flight (Extended.locked Samples_six)
                Extended.empty_counter) as He.
  pose proof (at_most_limit_fetches_in_flight
                {| Minimal.reposFile := "repos.txt"; Minimal.outFile := "stats.json";
                   Minimal.envFile := ".env"; Minimal.limit := 1; Minimal.help := false |}
                (Minimal.tasks Samples.minimal ["a/b"; "e/f"; "c/d"]) Samples_six _ _
                ltac:(cbn; lia) Hm He) as (H1 & H5 & _).
  split; [split; [exact Hm|exact H1]|split; [exact He|exact H5]].
Defined.

(** C9 as stated fails for cmd/main.go: it declares no [--limit] flag
    ([Extended.Flags] has none) and the capacity of its channel is the
    constant 5.  With six lines in the repository file five goroutines
    hold a slot at the same time, more than a limit of 2 allows, and no
    invocation changes that; in the minimal program [--limit 2] sets the
    capacity to 2. *)
Lemma cmd_main_limit_is_fixed :
  Extended_sem_cap = 5
  ∧ reachable (Extended.locked Samples_six)
      (init (length Samples_six) (Z.to_nat Extended_sem_cap) Extended.empty_counter)
      {| sem_len := 5; sem_cap := 5;
         procs := [InFlight; InFlight; InFlight; InFlight; InFlight; AtSend];
         shared := Extended.empty_counter; passed := [] |}
  ∧ (2 < in_flight
           {| sem_len := 5; sem_cap := 5;
              procs := [InFlight; InFlight; InFlight; InFlight; InFlight; AtSend];
              shared := Extended.empty_counter; passed := [] |})%nat
  ∧ Minimal_sem_cap
      {| Minimal.reposFile := "repos.txt"; Minimal.outFile := "stats.json";
         Minimal.envFile := ".env"; Minimal.limit := 2; Minimal.help := false |} = 2.
Proof.
  split; [reflexivity|]. split; [|split; [|reflexivity]].
  - apply (five_of_six_in_flight (Extended.locked Samples_six) Extended.empty_counter).
  - vm_compute. lia.
Qed.

End pool_of_the_programs.

(** ** Failures of one repository *)
Section failure_isolation.

Import Extended.

Lemma tasks_lookup w token (repos : list string) line :
  line ∈ repos →
  ∃ i, tasks w token repos !! i = Some (task w token (length repos) i line).
Proof.
  intros Hin. apply list_elem_of_lookup in Hin as [i Hi]. exists i.
  unfold tasks. by rewrite list_lookup_imap, Hi.
Qed.

Lemma task_Crashed w token total i line owner repo :
  strings_Split line slash = [owner; repo] →
  url_Parse_ok w (branches_url owner repo) = false →
  t_outcome (task w token total i line) = Crashed.
Proof.
  intros Hs Hurl. unfold task. rewrite Hs.
  unfold fetch, getLatestBranch, http_NewRequest. by rewrite Hurl.
Qed.

(** A goroutine that fails with an error leaves the counters alone. *)
Lemma skipped_adds_nothing stats r :
  t_outcome r = Skipped → apply_outcome stats (t_outcome r) = stats.
Proof. by intros ->. Qed.

(** A branch list or a manifest that cannot be fetched skips the
    repository. *)
Lemma fetch_error_skips w token total i full owner repo :
  (∃ c e, getLatestBranch w owner repo token = (c, Error e))
  ∨ (∃ c1 branch c2 e, getLatestBranch w owner repo token = (c1, Val branch)
                       ∧ getPubspec w owner repo branch token = (c2, Error e)) →
  t_outcome (fetch w token total i full owner repo) = Skipped.
Proof.
  unfold fetch. intros [(c & e & ->)|(c1 & branch & c2 & e & -> & ->)]; done.
Qed.

(** Unless a goroutine panics, cmd/main.go ends with status 0 whatever
    the repositories answer. *)
Lemma main_exit_status w flags order :
  r_exit (main w flags order) = 0 ∨
  (r_exit (main w flags order) = 2
   ∧ existsb is_Crashed (r_tasks (main w flags order)) = true).
Proof.
  unfold main. destruct (helpFlag flags); [by left|].
  case_bool_decide; [by left|]. case_bool_decide; [by left|].
  destruct (os_ReadFile w (reposPath flags)) as [file|e]; [|by left].
  case_bool_decide; [by left|].
  destruct (existsb is_Crashed _) eqn:Hc; [right; by rewrite ?Hc|].
  destruct (write_json w _ _); by left.
Qed.

(** Of the repositories a/b, e/f and c/d the second answers 404 for the
    manifest: the other two are counted and the run ends with status 0. *)
Lemma not_found_is_isolated :
  t_outcome <$> r_tasks (main (Samples.extended (@Samples.merge_Slice _))
                           Samples.flags [2; 0; 1]%nat)
    = [Merged (parsePubspec (Samples.extended (@Samples.merge_Slice _)) "M1");
       Skipped;
       Merged (parsePubspec (Samples.extended (@Samples.merge_Slice _)) "M2")]
  ∧ r_written (main (Samples.extended (@Samples.merge_Slice _))
                 Samples.flags [2; 0; 1]%nat)
    = Some ("stats.json",
            {| stDependencies :=
                 {[ "http" := {| count := 2; url := "https://pub.dev/packages/http" |};
                    "provider" :=
                      {| count := 1; url := "https://pub.dev/packages/provider" |} ]};
               stDevDependencies := ∅;
               stDependencyOverrides := ∅ |})
  ∧ r_exit (main (Samples.extended (@Samples.merge_Slice _))
              Samples.flags [2; 0; 1]%nat) = 0.
Proof. by vm_compute. Qed.

(** C3, at a line the claim fails on.  When a line of the repository
    file splits into an owner and a name with which the branches URL does
    not parse, [http.NewRequestWithContext] returns a nil request, the
    goroutine panics on [req.Header], and the whole run ends with status
    2 and no report: the other repositories are lost with it. *)
Theorem unparsable_url_kills_the_run
    (w : World) (flags : Flags) (order : list nat)
    (file line owner repo : string) :
  helpFlag flags = false →
  envPath flags ≠ "" → reposPath flags ≠ "" → outPath flags ≠ "" →
  load_token w (envPath flags) ≠ "" →
  os_ReadFile w (reposPath flags) = Ok file →
  line ∈ fields_trimmed w file →
  strings_Split line slash = [owner; repo] →
  url_Parse_ok w (branches_url owner repo) = false →
  r_exit (main w flags order) = 2 ∧ r_written (main w flags order) = None.
Proof.
  intros Hh He Hr Ho Htok Hfile Hin Hs Hurl.
  unfold main. rewrite Hh.
  rewrite bool_decide_eq_false_2 by (intros [?|[?|?]]; done).
  rewrite bool_decide_eq_false_2 by done. rewrite Hfile.
  rewrite bool_decide_eq_false_2.
  2: { intros Hlen. apply nil_length_inv in Hlen. rewrite Hlen in Hin.
       by apply elem_of_nil in Hin. }
  assert (existsb is_Crashed
            (tasks w (load_token w (envPath flags)) (fields_trimmed w file)) = true)
    as ->; [|done].
  apply existsb_exists.
  destruct (tasks_lookup w (load_token w (envPath flags)) _ _ Hin) as [i Hi].
  eexists. split.
  - apply list_elem_of_In, list_elem_of_lookup. eauto.
  - unfold is_Crashed. by rewrite (task_Crashed _ _ _ _ _ _ _ Hs Hurl).
Qed.

Lemma unparsable_url_sample :
  "a%zz/b" ∈ fields_trimmed (Samples.extended (@Samples.merge_Slice _)) "a/b a%zz/b"
  ∧ r_exit (main (Samples.extended (@Samples.merge_Slice _))
              Samples.broken_flags [0; 1]%nat) = 2
  ∧ r_written (main (Samples.extended (@Samples.merge_Slice _))
                 Samples.broken_flags [0; 1]%nat) = None.
Proof.
  assert ("a%zz/b" ∈ fields_trimmed (Samples.extended (@Samples.merge_Slice _))
                       "a/b a%zz/b") as Hin.
  { apply (bool_decide_unpack _). by vm_compute. }
  split; [exact Hin|].
  apply (unparsable_url_kills_the_run
           (Samples.extended (@Samples.merge_Slice _)) Samples.broken_flags
           [0; 1]%nat "a/b a%zz/b" "a%zz/b" "a%zz" "b").
  - reflexivity.
  - discriminate.
  - discriminate.
  - discriminate.
  - discriminate.
  - reflexivity.
  - exact Hin.
  - reflexivity.
  - reflexivity.
Defined.

End failure_isolation.

(** ** Order of the merges, and the flat counter *)
Section order_and_flat_counter.

(** The counters do not depend on the order in which the goroutines took
    the mutex. *)
Lemma Extended_collect_order (rs : list Extended.task_result) (order1 order2 : list nat) :
  order1 ≡ₚ seq 0 (length rs) → order2 ≡ₚ seq 0 (length rs) →
  Extended.collect rs order1 = Extended.collect rs order2.
Proof.
  intros H1 H2.
  assert (∀ s, Extended.counter_of s (Extended.collect rs order1) =
               Extended.counter_of s (Extended.collect rs order2)) as Hs.
  { intros s. apply map_eq. intros p. by rewrite !collect_lookup. }
  pose proof (Hs Extended.Runtime) as Hr. pose proof (Hs Extended.Dev) as Hd.
  pose proof (Hs Extended.Override) as Ho. cbn in Hr, Hd, Ho.
  destruct (Extended.collect rs order1), (Extended.collect rs order2).
  cbn in *. by subst.
Qed.

(** The keys a goroutine of the minimal program adds to [allDeps]. *)
Lemma Minimal_collect_incr_all (rs : list Minimal.task_result) (order : list nat)
    (allDeps : gmap string Z) :
  foldl (λ m i, Minimal.locked rs i m) allDeps order =
  incr_all allDeps
    (mjoin ((λ r, match Minimal.t_outcome r with
                  | Minimal.Merged deps => deps
                  | _ => []
                  end) <$> omap (λ i, rs !! i) order)).
Proof.
  revert allDeps. induction order as [|i order IH]; intros allDeps; [done|].
  cbn [foldl omap list_omap]. rewrite IH. unfold Minimal.locked.
  destruct (rs !! i) as [r|]; [|done].
  rewrite fmap_cons, mjoin_cons, incr_all_app.
  by destruct (Minimal.t_outcome r).
Qed.

(** The flat counter of a package is the number of its declarations, over
    the two sections of all the manifests merged (up to wrap-around). *)
Lemma Minimal_collect_lookup (rs : list Minimal.task_result) (order : list nat) (p : string) :
  default 0 (Minimal.collect rs order !! p) =
  Nat.iter
    (occ p (mjoin ((λ r, match Minimal.t_outcome r with
                         | Minimal.Merged deps => deps
                         | _ => []
                         end) <$> omap (λ i, rs !! i) order)))
    GoInt.incr 0.
Proof.
  unfold Minimal.collect. rewrite Minimal_collect_incr_all, incr_all_default.
  by rewrite lookup_empty.
Qed.

End order_and_flat_counter.

(** ** The limit is reached *)
Section limit_reached.

Import Pool.

Context {S : Type} (body : nat → S → S).

Lemma count_replicate (f : pc → bool) (n : nat) p :
  length (filter (λ q, f q) (replicate n p)) = (n * b2n (f p))%nat.
Proof.
  induction n as [|n IH]; [done|]. cbn [replicate]. rewrite count_cons, IH. lia.
Qed.

Lemma insert_replicate_boundary (k m : nat) :
  <[k := InFlight]> (replicate k InFlight ++ replicate (Datatypes.S m) AtSend) =
  replicate (Datatypes.S k) InFlight ++ replicate m AtSend.
Proof.
  induction k as [|k IH]; [done|].
  change (replicate (Datatypes.S (Datatypes.S k)) InFlight ++ replicate m AtSend)
    with (InFlight :: (replicate (Datatypes.S k) InFlight ++ replicate m AtSend)).
  rewrite <- IH. reflexivity.
Qed.

(** With at least [k] goroutines and at least [k] slots, [k] goroutines can
    be in flight together. *)
Lemma sends_reach (n cap k : nat) (s0 : S) :
  (k ≤ n)%nat → (k ≤ cap)%nat →
  reachable body (init n cap s0)
    {| sem_len := k; sem_cap := cap;
       procs := replicate k InFlight ++ replicate (n - k) AtSend;
       shared := s0; passed := [] |}.
Proof.
  induction k as [|k IH]; intros Hn Hcap.
  - rewrite Nat.sub_0_r. apply reach_init.
  - eapply reach_step; [apply IH; lia|].
    replace (n - k)%nat with (Datatypes.S (n - Datatypes.S k)) by lia.
    rewrite <- insert_replicate_boundary.
    apply (step_send body
             {| sem_len := k; sem_cap := cap;
                procs := replicate k InFlight ++ replicate (Datatypes.S (n - Datatypes.S k)) AtSend;
                shared := s0; passed := [] |} k).
    + cbn. rewrite lookup_app_r by (rewrite length_replicate; lia).
      rewrite length_replicate, Nat.sub_diag. done.
    + cbn. lia.
Qed.

(** For a list of at least [cap] repositories the bound is attained. *)
Lemma limit_is_reached (n cap : nat) (s0 : S) :
  (cap ≤ n)%nat →
  ∃ st, reachable body (init n cap s0) st ∧ in_flight st = cap.
Proof.
  intros Hn. eexists. split; [apply (sends_reach n cap cap s0); lia|].
  unfold in_flight. cbn. rewrite filter_app, length_app, !count_replicate. cbn. lia.
Qed.

End limit_reached.

(** ** Schedules do not show in the result *)
Section schedule_independence.

Lemma Extended_collect_perm (rs : list Extended.task_result) (order1 order2 : list nat) :
  order1 ≡ₚ order2 → Extended.collect rs order1 = Extended.collect rs order2.
Proof.
  intros Hp.
  assert (∀ s, Extended.counter_of s (Extended.collect rs order1) =
               Extended.counter_of s (Extended.collect rs order2)) as Hs.
  { intros s. rewrite !collect_foldl, !counter_of_foldl.
    apply incr_all_perm. by rewrite Hp. }
  pose proof (Hs Extended.Runtime) as Hr. pose proof (Hs Extended.Dev) as Hd.
  pose proof (Hs Extended.Override) as Ho. cbn in Hr, Hd, Ho.
  destruct (Extended.collect rs order1), (Extended.collect rs order2).
  cbn in *. by subst.
Qed.

Lemma Minimal_collect_keys (rs : list Minimal.task_result) (order : list nat) :
  Minimal.collect rs order =
  incr_all ∅ (mjoin (Minimal_keys_of <$> (Minimal.t_outcome <$> omap (λ i, rs !! i) order))).
Proof.
  unfold Minimal.collect. generalize (∅ : gmap string Z).
  induction order as [|i order IH]; intros allDeps; [done|].
  cbn [foldl omap list_omap]. rewrite IH. unfold Minimal.locked.
  destruct (rs !! i) as [r|]; [|done].
  rewrite !fmap_cons, mjoin_cons, incr_all_app.
  by destruct (Minimal.t_outcome r).
Qed.

Lemma Minimal_collect_perm (rs : list Minimal.task_result) (order1 order2 : list nat) :
  order1 ≡ₚ order2 → Minimal.collect rs order1 = Minimal.collect rs order2.
Proof.
  intros Hp. rewrite !Minimal_collect_keys. apply incr_all_perm. by rewrite Hp.
Qed.

(** X1.  Two runs that differ only in the order in which the goroutines
    took the mutex print the same, send the same requests, write the same
    report and end with the same status, in both programs. *)
Theorem run_does_not_depend_on_schedule
    (we : Extended.World) (fe : Extended.Flags)
    (wm : Minimal.World) (fm : Minimal.Flags) (order1 order2 : list nat) :
  order1 ≡ₚ order2 →
  Extended.main we fe order1 = Extended.main we fe order2
  ∧ Minimal.main wm fm order1 = Minimal.main wm fm order2.
Proof.
  intros Hp. split.
  - unfold Extended.main. destruct (Extended.helpFlag fe); [done|].
    case_bool_decide; [done|]. case_bool_decide; [done|].
    destruct (Extended.os_ReadFile we _) as [file|e]; [|done].
    case_bool_decide; [done|]. destruct (existsb _ _); [done|].
    by rewrite (Extended_collect_perm _ _ _ Hp).
  - unfold Minimal.main. destruct (Minimal.help fm); [done|].
    case_bool_decide; [done|].
    destruct (Minimal.readEnvToken wm _) as [token|e]; [|done].
    case_bool_decide; [done|].
    destruct (Minimal.readRepos wm _) as [repos|e]; [|done].
    case_bool_decide; [done|]. case_bool_decide; [done|].
    destruct (existsb _ _); [done|].
    by rewrite (Minimal_collect_perm _ _ _ Hp).
Qed.

Lemma run_schedule_sample :
  Extended.main (Samples.extended (@Samples.merge_Slice _)) Samples.flags [2; 0; 1]%nat
  = Extended.main (Samples.extended (@Samples.merge_Slice _)) Samples.flags [0; 1; 2]%nat
  ∧ Minimal.main Samples.minimal Samples.minimal_flags [2; 0; 1]%nat
    = Minimal.main Samples.minimal Samples.minimal_flags [0; 1; 2]%nat.
Proof.
  apply (run_does_not_depend_on_schedule
           (Samples.extended (@Samples.merge_Slice _)) Samples.flags
           Samples.minimal Samples.minimal_flags [2; 0; 1]%nat [0; 1; 2]%nat).
  apply (Permutation_cons_append [0; 1]%nat 2%nat).
Defined.

End schedule_independence.

(** ** Counters and thresholds *)
Section thresholds.

Import Extended.

Lemma collect_value_range (rs : list task_result) (order : list nat) s p v :
  order ≡ₚ seq 0 (length rs) →
  Z.of_nat (length rs) ≤ GoInt.max_int →
  counter_of s (collect rs order) !! p = Some v →
  1 ≤ v ≤ Z.of_nat (length rs).
Proof.
  intros Hord Hlen. rewrite collect_lookup by done.
  pose proof (declaring_le s p rs) as Hle.
  case_decide as H0; [done|]. intros [= <-].
  rewrite wrap_in_range; [lia|].
  unfold GoInt.in_range, GoInt.min_int, GoInt.max_int in *. lia.
Qed.

(** X2.  Every counter cmd/main.go holds when the goroutines are done
    lies between 1 and the number of repositories, so a [--min] of 1, of 0
    or below 0 gives one and the same report, in which every counted
    package appears. *)
Theorem min_below_one_reports_everything
    (rs : list task_result) (order : list nat) (minUsage : Z) (s : section) (p : string) :
  order ≡ₚ seq 0 (length rs) →
  Z.of_nat (length rs) ≤ GoInt.max_int →
  minUsage ≤ 1 →
  finalStats (collect rs order) minUsage = finalStats (collect rs order) 1
  ∧ (is_Some (report_of s (finalStats (collect rs order) minUsage) !! p)
     ↔ is_Some (counter_of s (collect rs order) !! p))
  ∧ (∀ v, counter_of s (collect rs order) !! p = Some v → 1 ≤ v ≤ Z.of_nat (length rs)).
Proof.
  intros Hord Hlen Hmin.
  assert (∀ s' m, m ≤ 1 →
            filter_section (counter_of s' (collect rs order)) m =
            filter_section (counter_of s' (collect rs order)) 1) as Hsec.
  { intros s' m Hm. apply map_eq. intros q. rewrite !filter_section_lookup.
    destruct (counter_of s' (collect rs order) !! q) as [v|] eqn:Hv; [|done].
    pose proof (collect_value_range _ _ _ _ _ Hord Hlen Hv) as [H1 _].
    unfold GoInt.ge. rewrite !bool_decide_eq_true_2 by lia. done. }
  split; [|split].
  - unfold finalStats. f_equal.
    + apply (Hsec Runtime _ Hmin).
    + apply (Hsec Dev _ Hmin).
    + apply (Hsec Override _ Hmin).
  - rewrite report_of_finalStats, filter_section_lookup.
    destruct (counter_of s (collect rs order) !! p) as [v|] eqn:Hv.
    + pose proof (collect_value_range _ _ _ _ _ Hord Hlen Hv) as [H1 _].
      unfold GoInt.ge. rewrite bool_decide_eq_true_2 by lia. done.
    + done.
  - intros v Hv. by eapply collect_value_range.
Qed.

Lemma min_below_one_sample :
  finalStats (collect (tasks (Samples.extended (@Samples.merge_Slice _)) "tok"
                         ["a/b"; "e/f"; "c/d"]) [0; 1; 2]%nat) (-3)
  = finalStats (collect (tasks (Samples.extended (@Samples.merge_Slice _)) "tok"
                           ["a/b"; "e/f"; "c/d"]) [0; 1; 2]%nat) 1.
Proof.
  destruct (min_below_one_reports_everything
              (tasks (Samples.extended (@Samples.merge_Slice _)) "tok"
                 ["a/b"; "e/f"; "c/d"]) [0; 1; 2]%nat (-3) Runtime "http")
    as (H & _ & _).
  - reflexivity.
  - by vm_compute.
  - lia.
  - exact H.
Defined.

(** X3.  A [--min] above the number of repositories leaves every section
    of the report empty. *)
Theorem min_above_repositories_reports_nothing
    (rs : list task_result) (order : list nat) (minUsage : Z) :
  order ≡ₚ seq 0 (length rs) →
  Z.of_nat (length rs) ≤ GoInt.max_int →
  Z.of_nat (length rs) < minUsage →
  finalStats (collect rs order) minUsage = empty_Stats.
Proof.
  intros Hord Hlen Hmin.
  assert (∀ s', filter_section (counter_of s' (collect rs order)) minUsage = ∅) as Hsec.
  { intros s'. apply map_eq. intros q. rewrite filter_section_lookup, lookup_empty.
    destruct (counter_of s' (collect rs order) !! q) as [v|] eqn:Hv; [|done].
    pose proof (collect_value_range _ _ _ _ _ Hord Hlen Hv) as [_ H2].
    unfold GoInt.ge. rewrite bool_decide_eq_false_2 by lia. done. }
  unfold finalStats, empty_Stats. f_equal.
  - apply (Hsec Runtime).
  - apply (Hsec Dev).
  - apply (Hsec Override).
Qed.

Lemma min_above_repositories_sample :
  finalStats (collect (tasks (Samples.extended (@Samples.merge_Slice _)) "tok"
                         ["a/b"; "e/f"; "c/d"]) [0; 1; 2]%nat) 4
  = empty_Stats.
Proof.
  apply (min_above_repositories_reports_nothing
           (tasks (Samples.extended (@Samples.merge_Slice _)) "tok" ["a/b"; "e/f"; "c/d"])
           [0; 1; 2]%nat 4).
  - reflexivity.
  - by vm_compute.
  - by vm_compute.
Defined.

(** X4.  Raising [--min] only removes entries: the report for the higher
    threshold is part of the report for the lower one, entry by entry. *)
Theorem raising_min_only_removes_entries
    (stats : counter) (min1 min2 : Z) (s : section) :
  min1 ≤ min2 →
  report_of s (finalStats stats min2) ⊆ report_of s (finalStats stats min1).
Proof.
  intros Hle. rewrite !report_of_finalStats. apply map_subseteq_spec.
  intros p e. rewrite !filter_section_lookup.
  destruct (counter_of s stats !! p) as [v|]; [|done].
  unfold GoInt.ge. case_bool_decide as H2; [|done].
  rewrite bool_decide_eq_true_2 by lia. done.
Qed.

Lemma raising_min_sample :
  report_of Runtime (finalStats {| deps := {[ "flutter" := 3; "http" := 1 ]};
                                   devDeps := ∅; overrides := ∅ |} 2)
  ⊆ report_of Runtime (finalStats {| deps := {[ "flutter" := 3; "http" := 1 ]};
                                     devDeps := ∅; overrides := ∅ |} 1).
Proof.
  apply (raising_min_only_removes_entries
           {| deps := {[ "flutter" := 3; "http" := 1 ]}; devDeps := ∅; overrides := ∅ |}
           1 2 Runtime).
  lia.
Defined.

End thresholds.

(** ** Runs of the goroutines *)
Section pool_runs.

Import Pool.

Context {S : Type} (body : nat → S → S).

Implicit Types (l : list pc) (st : state S).

Lemma count_pos (f : pc → bool) l p :
  p ∈ l → f p = true → (0 < length (filter (λ q, f q) l))%nat.
Proof.
  induction l as [|x l IH]; intros Hin Hf; [by apply elem_of_nil in Hin|].
  rewrite count_cons. apply elem_of_cons in Hin as [<-|Hin].
  - rewrite Hf. cbn. lia.
  - specialize (IH Hin Hf). lia.
Qed.

Lemma count_none l :
  InFlight ∉ l → Merged ∉ l → length (filter (λ q, holds_slot q) l) = O.
Proof.
  induction l as [|x l IH]; intros H1 H2; [done|].
  apply not_elem_of_cons in H1 as [? ?]. apply not_elem_of_cons in H2 as [? ?].
  rewrite count_cons, IH by done. by destruct x.
Qed.

Lemma some_not_returned l :
  ¬ Forall (λ p, p = Returned) l → InFlight ∉ l → Merged ∉ l → AtSend ∈ l.
Proof.
  induction l as [|x l IH]; intros Hall H1 H2; [by destruct Hall|].
  apply not_elem_of_cons in H1 as [? ?]. apply not_elem_of_cons in H2 as [? ?].
  destruct x; try done; [by left|].
  right. apply IH; [|done..]. intros Hl. apply Hall. by constructor.
Qed.

(** With room for one goroutine at least, some goroutine can move as long
    as one of them has not returned. *)
Lemma pool_progress n cap (s0 : S) st :
  (0 < cap)%nat → reachable body (init n cap s0) st → ¬ all_returned st →
  ∃ st', step body st st'.
Proof.
  intros Hcap Hr Hnot.
  destruct (reachable_slots_held body _ _ (slots_held_init n cap s0) Hr)
    as [[Hfl Hle] Hc]. cbn in Hc. unfold in_flight in Hfl.
  destruct (decide (InFlight ∈ procs st)) as [Hi|Hi].
  { apply list_elem_of_lookup in Hi as [i Hi]. eexists. by apply (step_merge body st i). }
  destruct (decide (Merged ∈ procs st)) as [Hm|Hm].
  { pose proof (count_pos holds_slot _ _ Hm eq_refl) as Hpos.
    apply list_elem_of_lookup in Hm as [i Hm]. eexists.
    apply (step_recv body st i); [done|lia]. }
  pose proof (count_none _ Hi Hm) as H0.
  pose proof (some_not_returned _ Hnot Hi Hm) as Ha.
  apply list_elem_of_lookup in Ha as [i Ha]. eexists.
  apply (step_send body st i); [done|lia].
Qed.

(** A channel without buffer lets no goroutine through. *)
Lemma zero_capacity_stuck n (s0 : S) st :
  reachable body (init n 0 s0) st → st = init n 0 s0.
Proof.
  induction 1 as [|st st' _ IH Hstep]; [done|]. subst st.
  inversion Hstep as [st i Hi Hroom|st i Hi|st i Hi Hsome]; subst; cbn in *.
  - lia.
  - apply lookup_replicate in Hi as [? _]. done.
  - lia.
Qed.

End pool_runs.

Section pool_runs_of_the_programs.

Import Pool.

(** X6.  With a limit of at least 1 the goroutines never block one
    another for good: in every state they can reach, as long as one of them
    has not returned, one of them can take its next step. *)
Theorem goroutines_never_deadlock
    (flags : Minimal.Flags)
    (rsm : list Minimal.task_result) (stm : state (gmap string Z))
    (rse : list Extended.task_result) (ste : state Extended.counter) :
  0 < Minimal.limit flags →
  reachable (Minimal.locked rsm)
    (init (length rsm) (Z.to_nat (Minimal_sem_cap flags)) ∅) stm →
  ¬ all_returned stm →
  reachable (Extended.locked rse)
    (init (length rse) (Z.to_nat Extended_sem_cap) Extended.empty_counter) ste →
  ¬ all_returned ste →
  (∃ st', step (Minimal.locked rsm) stm st')
  ∧ (∃ st', step (Extended.locked rse) ste st').
Proof.
  intros Hlim Hm Hnm He Hne. split.
  - eapply pool_progress; [|exact Hm|exact Hnm]. unfold Minimal_sem_cap. lia.
  - eapply pool_progress; [|exact He|exact Hne]. unfold Extended_sem_cap. lia.
Qed.

Lemma never_deadlock_sample :
  (∃ st', step (Minimal.locked (Minimal.tasks Samples.minimal ["a/b"]))
            (init 1 5 ∅) st')
  ∧ (∃ st', step (Extended.locked [Samples.merged_ab])
              (init 1 5 Extended.empty_counter) st').
Proof.
  apply (goroutines_never_deadlock Samples.minimal_flags
           (Minimal.tasks Samples.minimal ["a/b"]) (init 1 5 ∅)
           [Samples.merged_ab] (init 1 5 Extended.empty_counter)).
  - reflexivity.
  - apply reach_init.
  - intros H. by inversion H.
  - apply reach_init.
  - intros H. by inversion H.
Defined.

(** X7.  With [--limit 0] the channel has no buffer: no goroutine of the
    minimal program ever gets past [sem <- struct{}{}], nothing is merged,
    and with one repository or more [wg.Wait()] never returns. *)
Theorem limit_zero_lets_nothing_through
    (flags : Minimal.Flags) (rs : list Minimal.task_result)
    (st : state (gmap string Z)) :
  Minimal.limit flags = 0 →
  rs ≠ [] →
  reachable (Minimal.locked rs)
    (init (length rs) (Z.to_nat (Minimal_sem_cap flags)) ∅) st →
  in_flight st = O ∧ shared st = ∅ ∧ passed st = [] ∧ ¬ all_returned st.
Proof.
  intros Hlim Hrs Hr. unfold Minimal_sem_cap in Hr. rewrite Hlim in Hr.
  apply zero_capacity_stuck in Hr. subst st.
  split; [|split; [done|split; [done|]]].
  - unfold in_flight. cbn. apply count_none; intros [? _]%elem_of_replicate; done.
  - destruct rs as [|r rs]; [done|]. intros H. by inversion H.
Qed.

Lemma limit_zero_sample :
  in_flight (init 1 0 (∅ : gmap string Z)) = O
  ∧ shared (init 1 0 (∅ : gmap string Z)) = ∅
  ∧ passed (init 1 0 (∅ : gmap string Z)) = []
  ∧ ¬ all_returned (init 1 0 (∅ : gmap string Z)).
Proof.
  apply (limit_zero_lets_nothing_through
           {| Minimal.reposFile := "repos.txt"; Minimal.outFile := "stats.json";
              Minimal.envFile := ".env"; Minimal.limit := 0; Minimal.help := false |}
           (Minimal.tasks Samples.minimal ["a/b"]) (init 1 0 ∅)).
  - reflexivity.
  - discriminate.
  - apply reach_init.
Defined.

(** X8.  The bound on fetches in flight is attained: with at least as
    many repositories as slots, the goroutines can hold all the slots at
    the same time ([--limit] of them in the minimal program, 5 in
    cmd/main.go). *)
Theorem all_slots_can_be_taken
    (flags : Minimal.Flags)
    (rsm : list Minimal.task_result) (rse : list Extended.task_result) :
  0 ≤ Minimal.limit flags →
  Minimal.limit flags ≤ Z.of_nat (length rsm) →
  5 ≤ Z.of_nat (length rse) →
  (∃ st, reachable (Minimal.locked rsm)
           (init (length rsm) (Z.to_nat (Minimal_sem_cap flags)) ∅) st
         ∧ Z.of_nat (in_flight st) = Minimal.limit flags)
  ∧ (∃ st, reachable (Extended.locked rse)
             (init (length rse) (Z.to_nat Extended_sem_cap) Extended.empty_counter) st
           ∧ in_flight st = 5%nat).
Proof.
  intros H0 Hm He. split.
  - destruct (limit_is_reached (Minimal.locked rsm) (length rsm)
                (Z.to_nat (Minimal_sem_cap flags)) ∅) as (st & Hr & Hfl).
    { unfold Minimal_sem_cap. lia. }
    exists st. split; [done|]. rewrite Hfl. unfold Minimal_sem_cap. lia.
  - destruct (limit_is_reached (Extended.locked rse) (length rse)
                (Z.to_nat Extended_sem_cap) Extended.empty_counter) as (st & Hr & Hfl).
    { unfold Extended_sem_cap. lia. }
    exists st. split; [done|]. rewrite Hfl. done.
Qed.

Lemma all_slots_sample :
  (∃ st, reachable (Minimal.locked (Minimal.tasks Samples.minimal ["a/b"; "e/f"; "c/d"]))
           (init 3 2 ∅) st
         ∧ Z.of_nat (in_flight st) = 2)
  ∧ (∃ st, reachable (Extended.locked (replicate 5 Samples.merged_ab))
             (init 5 5 Extended.empty_counter) st
           ∧ in_flight st = 5%nat).
Proof.
  apply (all_slots_can_be_taken
           {| Minimal.reposFile := "repos.txt"; Minimal.outFile := "stats.json";
              Minimal.envFile := ".env"; Minimal.limit := 2; Minimal.help := false |}
           (Minimal.tasks Samples.minimal ["a/b"; "e/f"; "c/d"])
           (replicate 5 Samples.merged_ab)).
  - by vm_compute.
  - by vm_compute.
  - by vm_compute.
Defined.

End pool_runs_of_the_programs.

(** ** The requests of a run *)
Section requests.

Lemma strings_HasPrefix_app (p s : string) : strings_HasPrefix (p +:+ s) p = true.
Proof.
  induction p as [|c p IH]; [by destruct s|].
  change (String c p +:+ s) with (String c (p +:+ s)).
  cbn [strings_HasPrefix]. by rewrite decide_True.
Qed.

Lemma strings_HasPrefix_inv (s p : string) :
  strings_HasPrefix s p = true → ∃ t, s = p +:+ t.
Proof.
  revert s. induction p as [|c p IH]; intros s H; [by exists s|].
  destruct s as [|x s]; [done|]. cbn [strings_HasPrefix] in H.
  case_decide as Hx; [|done]. subst x. destruct (IH s H) as [t ->]. by exists t.
Qed.

Lemma getLatestBranch_calls w owner repo token :
  fst (Extended.getLatestBranch w owner repo token) = [] ∨
  fst (Extended.getLatestBranch w owner repo token) =
    [{| Extended.req_url := Extended.branches_url owner repo;
        Extended.req_Authorization := "token " +:+ token |}].
Proof.
  unfold Extended.getLatestBranch, Extended.http_NewRequest.
  destruct (Extended.url_Parse_ok w _); [|by left]. right.
  unfold Extended.set_Authorization. cbn [Extended.req_url].
  destruct (Extended.client_Do w _) as [resp|e]; [|done].
  case_bool_decide; [done|].
  destruct (Extended.json_Decode_branches w _) as [bs|e]; [|done].
  case_bool_decide; [done|]. by destruct (Extended.sort_Slice w _ _).
Qed.

Lemma getPubspec_calls w owner repo branch token :
  fst (Extended.getPubspec w owner repo branch token) = [] ∨
  fst (Extended.getPubspec w owner repo branch token) =
    [{| Extended.req_url := Extended.pubspec_url owner repo branch;
        Extended.req_Authorization := "token " +:+ token |}].
Proof.
  unfold Extended.getPubspec, Extended.http_NewRequest.
  destruct (Extended.url_Parse_ok w _); [|by left]. right.
  unfold Extended.set_Authorization. cbn [Extended.req_url].
  destruct (Extended.client_Do w _) as [resp|e]; [|done].
  case_bool_decide; [done|].
  destruct (Extended.json_Decode_file w _) as [content|e]; [|done].
  by destruct (Extended.base64_DecodeString w _).
Qed.

(** The requests of one goroutine of cmd/main.go: the branch list, then
    possibly the manifest at one branch. *)
Lemma fetch_calls w token total i full owner repo :
  ∃ c1 c2,
    Extended.t_calls (Extended.fetch w token total i full owner repo) = c1 ++ c2
    ∧ (c1 = [] ∨ c1 = [{| Extended.req_url := Extended.branches_url owner repo;
                          Extended.req_Authorization := "token " +:+ token |}])
    ∧ (c2 = [] ∨ ∃ branch,
         c2 = [{| Extended.req_url := Extended.pubspec_url owner repo branch;
                  Extended.req_Authorization := "token " +:+ token |}]).
Proof.
  unfold Extended.fetch.
  pose proof (getLatestBranch_calls w owner repo token) as H1.
  destruct (Extended.getLatestBranch w owner repo token) as [c1 [branch|e|]];
    cbn [fst] in H1.
  - pose proof (getPubspec_calls w owner repo branch token) as H2.
    destruct (Extended.getPubspec w owner repo branch token) as [c2 [data|e|]];
      cbn [fst] in H2; exists c1, c2; (split; [done|]); (split; [done|]);
      (destruct H2 as [->| ->]; [by left|right; by exists branch]).
  - exists c1, []. rewrite app_nil_r. split; [done|]. split; [done|by left].
  - exists c1, []. rewrite app_nil_r. split; [done|]. split; [done|by left].
Qed.

Lemma Extended_tasks_calls w token repos req :
  req ∈ mjoin (Extended.t_calls <$> Extended.tasks w token repos) →
  ∃ i line, repos !! i = Some line
            ∧ req ∈ Extended.t_calls (Extended.task w token (length repos) i line).
Proof.
  intros Hin. apply list_elem_of_join in Hin as (calls & Hreq & Hcalls).
  apply list_elem_of_fmap in Hcalls as (r & -> & Hr).
  apply list_elem_of_lookup in Hr as [i Hi]. unfold Extended.tasks in Hi.
  rewrite list_lookup_imap in Hi.
  destruct (repos !! i) as [line|] eqn:Hline; [|done].
  cbn in Hi. injection Hi as <-. eauto.
Qed.

Lemma Extended_main_tasks w flags order :
  Extended.r_tasks (Extended.main w flags order) = [] ∨
  ∃ file, Extended.os_ReadFile w (Extended.reposPath flags) = Ok file
          ∧ Extended.load_token w (Extended.envPath flags) ≠ ""
          ∧ Extended.r_tasks (Extended.main w flags order) =
              Extended.tasks w (Extended.load_token w (Extended.envPath flags))
                (Extended.fields_trimmed w file).
Proof.
  unfold Extended.main. destruct (Extended.helpFlag flags); [by left|].
  case_bool_decide; [by left|]. case_bool_decide as Htok; [by left|].
  destruct (Extended.os_ReadFile w _) as [file|e]; [|by left].
  case_bool_decide; [by left|]. right. exists file. split; [done|]. split; [done|].
  destruct (existsb _ _); [done|]. by destruct (Extended.write_json w _ _).
Qed.

(** X10.  Every request cmd/main.go sends carries the header value
    "token " followed by the non-empty GITHUB_TOKEN, and asks
    api.github.com either for the branches of a repository named on a
    line of the repository file or for pubspec.yaml of that repository at
    some ref; nothing is sent anywhere else, and nothing without token. *)
Theorem requests_go_to_the_listed_repositories_with_the_token
    (w : Extended.World) (flags : Extended.Flags) (order : list nat)
    (req : Extended.Request) :
  req ∈ Extended.network_calls (Extended.main w flags order) →
  Extended.load_token w (Extended.envPath flags) ≠ ""
  ∧ Extended.req_Authorization req =
      "token " +:+ Extended.load_token w (Extended.envPath flags)
  ∧ strings_HasPrefix (Extended.req_url req) "https://api.github.com/repos/" = true
  ∧ ∃ file owner repo,
      Extended.os_ReadFile w (Extended.reposPath flags) = Ok file
      ∧ (owner +:+ "/" +:+ repo) ∈ Extended.fields_trimmed w file
      ∧ (Extended.req_url req = Extended.branches_url owner repo
         ∨ ∃ branch, Extended.req_url req = Extended.pubspec_url owner repo branch).
Proof.
  unfold Extended.network_calls. intros Hin.
  destruct (Extended_main_tasks w flags order) as [Hnil|(file & Hfile & Htok & Htasks)].
  { rewrite Hnil in Hin. by apply elem_of_nil in Hin. }
  rewrite Htasks in Hin.
  apply Extended_tasks_calls in Hin as (i & line & Hline & Hin).
  unfold Extended.task in Hin.
  destruct (strings_Split line slash) as [|owner [|repo [|? ?]]] eqn:Hs;
    try (by apply elem_of_nil in Hin).
  apply strings_Split_two in Hs as (Hl & _ & _).
  destruct (fetch_calls w (Extended.load_token w (Extended.envPath flags))
              (length (Extended.fields_trimmed w file)) i line owner repo)
    as (c1 & c2 & Hc & H1 & H2).
  rewrite Hc in Hin.
  assert (Extended.req_Authorization req =
            "token " +:+ Extended.load_token w (Extended.envPath flags)
          ∧ (Extended.req_url req = Extended.branches_url owner repo
             ∨ ∃ branch, Extended.req_url req = Extended.pubspec_url owner repo branch))
    as [Hauth Hurl].
  { apply elem_of_app in Hin as [Hin|Hin].
    - destruct H1 as [->| ->]; [by apply elem_of_nil in Hin|].
      apply list_elem_of_singleton in Hin as ->. split; [done|by left].
    - destruct H2 as [->|[branch ->]]; [by apply elem_of_nil in Hin|].
      apply list_elem_of_singleton in Hin as ->. split; [done|right; by exists branch]. }
  split; [done|]. split; [done|]. split.
  - destruct Hurl as [->|[branch ->]].
    + unfold Extended.branches_url. apply strings_HasPrefix_app.
    + unfold Extended.pubspec_url. apply strings_HasPrefix_app.
  - exists file, owner, repo. split; [done|]. split; [|done].
    change (owner +:+ "/" +:+ repo) with (owner +:+ String slash repo).
    rewrite <- Hl. by eapply list_elem_of_lookup_2.
Qed.

Lemma requests_sample :
  Extended.req_Authorization
    {| Extended.req_url := "https://api.github.com/repos/a/b/branches";
       Extended.req_Authorization := "token tok" |} = "token tok"
  ∧ strings_HasPrefix "https://api.github.com/repos/a/b/branches"
      "https://api.github.com/repos/" = true.
Proof.
  destruct (requests_go_to_the_listed_repositories_with_the_token
              (Samples.extended (@Samples.merge_Slice _)) Samples.flags [0; 1; 2]%nat
              {| Extended.req_url := "https://api.github.com/repos/a/b/branches";
                 Extended.req_Authorization := "token tok" |}) as (_ & Ha & Hp & _).
  - vm_compute. left.
  - split; [exact Ha|exact Hp].
Defined.

Lemma Minimal_task_calls w line :
  Minimal.t_calls (Minimal.task w line) = option_list (Minimal_call_of line).
Proof.
  unfold Minimal.task, Minimal.splitRepo, Minimal_call_of.
  destruct (strings_Split line slash) as [|owner [|repo [|? ?]]]; try done.
  unfold Minimal.fetch.
  destruct (Minimal.GetContents w owner repo "pubspec.yaml") as [[content|]|e]; try done.
  destruct (Minimal.GetContent w content) as [data|e]; try done.
  by destruct (Minimal.extractDependencies w data).
Qed.

Lemma Minimal_tasks_calls w repos :
  mjoin (Minimal.t_calls <$> Minimal.tasks w repos) = omap Minimal_call_of repos.
Proof.
  unfold Minimal.tasks. induction repos as [|l repos IH]; [done|].
  rewrite !fmap_cons, mjoin_cons, IH, Minimal_task_calls.
  cbn [omap list_omap]. by destruct (Minimal_call_of l).
Qed.

Lemma Minimal_calls_count repos :
  length (omap Minimal_call_of repos) =
  length (filter (λ l, count_byte slash l = 1%nat) repos).
Proof.
  induction repos as [|l repos IH]; [done|].
  cbn [omap list_omap]. rewrite filter_cons. unfold Minimal_call_of at 1.
  destruct (decide (count_byte slash l = 1%nat)) as [H1|H1].
  - apply strings_Split_two_count in H1 as (o & r & ->). cbn. by rewrite IH.
  - destruct (strings_Split l slash) as [|o [|r [|? ?]]] eqn:Hs; try done.
    exfalso. apply H1. apply strings_Split_two_count. eauto.
Qed.

(** A run of the minimal program that ends with status 0 without [--help]
    has read the repository file and run all its goroutines. *)
Lemma Minimal_main_finished w flags order :
  Minimal.help flags = false →
  Minimal.r_exit (Minimal.main w flags order) = 0 →
  ∃ repos, Minimal.readRepos w (Minimal.reposFile flags) = Ok repos
           ∧ Minimal.r_tasks (Minimal.main w flags order) = Minimal.tasks w repos
           ∧ existsb Minimal.is_Crashed (Minimal.tasks w repos) = false.
Proof.
  intros Hhelp. unfold Minimal.main. rewrite Hhelp.
  case_bool_decide; [done|].
  destruct (Minimal.readEnvToken w _) as [token|e]; [|done].
  case_bool_decide; [done|].
  destruct (Minimal.readRepos w _) as [repos|e]; [|done].
  case_bool_decide; [done|]. case_bool_decide; [done|].
  destruct (existsb Minimal.is_Crashed _) eqn:Hc; [done|].
  destruct (Minimal.write_file w _ _); [done|].
  intros _. by exists repos.
Qed.

(** X11.  A run of the minimal program that ends with status 0 (other
    than for [--help]) has called the hosting API exactly once for every
    line of the repository file that holds one slash and never for
    another line, always for the path pubspec.yaml: which calls are made
    does not depend on what the API answers (no retry, no early stop).
    The calls are concurrent, so they are compared up to their order.  A
    goroutine of cmd/main.go sends at most two requests. *)
Theorem finished_run_called_once_per_well_formed_line
    (wm : Minimal.World) (flags : Minimal.Flags) (order : list nat)
    (we : Extended.World) (token : string) (total i : nat) (line : string) :
  Minimal.help flags = false →
  Minimal.r_exit (Minimal.main wm flags order) = 0 →
  (∃ repos,
     Minimal.readRepos wm (Minimal.reposFile flags) = Ok repos
     ∧ Minimal.network_calls (Minimal.main wm flags order) ≡ₚ omap Minimal_call_of repos
     ∧ length (Minimal.network_calls (Minimal.main wm flags order)) =
         length (filter (λ l, count_byte slash l = 1%nat) repos))
  ∧ (length (Extended.t_calls (Extended.task we token total i line)) ≤ 2)%nat.
Proof.
  intros Hhelp Hexit. split.
  - destruct (Minimal_main_finished wm flags order Hhelp Hexit) as (repos & Hr & Ht & _).
    exists repos. split; [done|]. unfold Minimal.network_calls.
    rewrite Ht, Minimal_tasks_calls. split; [done|apply Minimal_calls_count].
  - unfold Extended.task.
    destruct (strings_Split line slash) as [|owner [|repo [|? ?]]]; try (cbn; lia).
    destruct (fetch_calls we token total i line owner repo) as (c1 & c2 & -> & H1 & H2).
    rewrite length_app.
    destruct H1 as [->| ->], H2 as [->|[b ->]]; cbn; lia.
Qed.

(** The three lines a/b, e/f and c/d: three calls, also for e/f, which
    the API answers with 404. *)
Lemma finished_run_sample :
  length (Minimal.network_calls
            (Minimal.main Samples.minimal Samples.minimal_flags [0; 1; 2]%nat)) = 3%nat
  ∧ {| Minimal.c_owner := "e"; Minimal.c_repo := "f"; Minimal.c_path := "pubspec.yaml" |}
      ∈ Minimal.network_calls
          (Minimal.main Samples.minimal Samples.minimal_flags [0; 1; 2]%nat).
Proof.
  destruct (finished_run_called_once_per_well_formed_line
              Samples.minimal Samples.minimal_flags [0; 1; 2]%nat
              (Samples.extended (@Samples.merge_Slice _)) "tok" 3 0 "a/b")
    as [(repos & Hr & Hp & Hl) _].
  - reflexivity.
  - by vm_compute.
  - vm_compute in Hr. injection Hr as <-. split.
    + rewrite Hl. by vm_compute.
    + rewrite Hp. vm_compute. right. left.
Defined.

End requests.

(** ** How a run ends *)
Section run_end.

Import Extended.

Lemma getLatestBranch_no_panic w owner repo token :
  url_Parse_ok w (branches_url owner repo) = true →
  sort_Slice_contract (sort_Slice w) →
  snd (getLatestBranch w owner repo token) ≠ Panic.
Proof.
  intros Hurl Hsort. unfold getLatestBranch, http_NewRequest. rewrite Hurl.
  destruct (client_Do w _) as [resp|e]; [|done].
  case_bool_decide; [done|].
  destruct (json_Decode_branches w _) as [bs|e]; [|done].
  case_bool_decide as Hlen; [done|].
  destruct (sort_Slice w newer bs) as [|b rest] eqn:Hs; [|done].
  exfalso. apply (sorted_nonempty _ bs Hsort); [|done]. by intros ->.
Qed.

Lemma getPubspec_no_panic w owner repo branch token :
  url_Parse_ok w (pubspec_url owner repo branch) = true →
  snd (getPubspec w owner repo branch token) ≠ Panic.
Proof.
  intros Hurl. unfold getPubspec, http_NewRequest. rewrite Hurl.
  destruct (client_Do w _) as [resp|e]; [|done].
  case_bool_decide; [done|].
  destruct (json_Decode_file w _) as [content|e]; [|done].
  by destruct (base64_DecodeString w _).
Qed.

Lemma task_not_Crashed w token total i line repos :
  Extended_urls_parse w token repos → line ∈ repos →
  sort_Slice_contract (sort_Slice w) →
  is_Crashed (task w token total i line) = false.
Proof.
  intros Hurl Hin Hsort. unfold task, is_Crashed.
  destruct (strings_Split line slash) as [|owner [|repo [|? ?]]] eqn:Hs; try done.
  destruct (Hurl line owner repo Hin Hs) as [Hb Hp].
  unfold fetch.
  pose proof (getLatestBranch_no_panic w owner repo token Hb Hsort) as H1.
  destruct (getLatestBranch w owner repo token) as [c1 [branch|e|]] eqn:Hg; [|done|done].
  pose proof (getPubspec_no_panic w owner repo branch token (Hp c1 branch eq_refl)) as H2.
  by destruct (getPubspec w owner repo branch token) as [c2 [data|e|]].
Qed.

Lemma tasks_not_Crashed w token repos :
  Extended_urls_parse w token repos →
  sort_Slice_contract (sort_Slice w) →
  existsb is_Crashed (tasks w token repos) = false.
Proof.
  intros Hurl Hsort. unfold tasks.
  assert (∀ (f : nat → string → task_result) (l : list string),
            (∀ i x, x ∈ l → is_Crashed (f i x) = false) →
            existsb is_Crashed (imap f l) = false) as Hall.
  { intros f l. revert f. induction l as [|x l IH]; intros f Hf; [done|].
    cbn [imap existsb]. rewrite Hf by left. cbn [orb]. apply IH.
    intros i' x' Hx'. apply Hf. by right. }
  apply Hall. intros i x Hx. by apply (task_not_Crashed w token _ i x repos).
Qed.

(** X12.  When [url.Parse] accepts the URLs the program builds for the
    lines of the repository file (the branches URL of every line with one
    slash, and the pubspec.yaml URL at the branch [getLatestBranch]
    returns for it) and [sort.Slice] does what it promises, no goroutine
    of cmd/main.go panics and the process ends with status 0, whatever the
    flags and the answers of the hosting API are. *)
Theorem main_ends_with_status_zero_when_its_urls_parse
    (w : World) (flags : Flags) (order : list nat) :
  (∀ file, os_ReadFile w (reposPath flags) = Ok file →
           Extended_urls_parse w (load_token w (envPath flags)) (fields_trimmed w file)) →
  sort_Slice_contract (sort_Slice w) →
  r_exit (main w flags order) = 0
  ∧ existsb is_Crashed (r_tasks (main w flags order)) = false.
Proof.
  intros Hurl Hsort. unfold main. destruct (helpFlag flags); [done|].
  case_bool_decide; [done|]. case_bool_decide; [done|].
  destruct (os_ReadFile w _) as [file|e]; [|done].
  case_bool_decide; [done|].
  specialize (Hurl file eq_refl).
  rewrite (tasks_not_Crashed w _ _ Hurl Hsort).
  destruct (write_json w _ _); cbn [r_exit r_tasks];
    by rewrite (tasks_not_Crashed w _ _ Hurl Hsort).
Qed.

(** The lines a/b, e/f and c/d of the sample file: six URLs, none of them
    with a percent sign. *)
Lemma status_zero_sample :
  r_exit (main (Samples.extended (@Samples.merge_Slice _)) Samples.flags [0; 1; 2]%nat) = 0
  ∧ existsb is_Crashed
      (r_tasks (main (Samples.extended (@Samples.merge_Slice _)) Samples.flags
                  [0; 1; 2]%nat)) = false.
Proof.
  apply (main_ends_with_status_zero_when_its_urls_parse
           (Samples.extended (@Samples.merge_Slice _)) Samples.flags [0; 1; 2]%nat).
  - intros file Hfile. vm_compute in Hfile. injection Hfile as <-.
    intros line owner repo Hin Hs.
    change (line ∈ ["a/b"; "e/f"; "c/d"]) in Hin.
    apply elem_of_cons in Hin as [->|Hin]; [|apply elem_of_cons in Hin as [->|Hin];
      [|apply list_elem_of_singleton in Hin as ->]];
      vm_compute in Hs; injection Hs as <- <-;
      (split; [reflexivity|]);
      intros c branch Hb; vm_compute in Hb; injection Hb as <- <-; reflexivity.
  - exact merge_Slice_contract.
Defined.

Lemma getLatestBranch_Val w owner repo token c branch :
  getLatestBranch w owner repo token = (c, Val branch) →
  c = [{| req_url := branches_url owner repo; req_Authorization := "token " +:+ token |}]
  ∧ ∃ resp, client_Do w {| req_url := branches_url owner repo;
                           req_Authorization := "token " +:+ token |} = Ok resp
            ∧ StatusCode resp = 200.
Proof.
  set (req := {| req_url := branches_url owner repo;
                 req_Authorization := "token " +:+ token |}).
  unfold getLatestBranch, http_NewRequest.
  destruct (url_Parse_ok w (branches_url owner repo)); [|done].
  change (set_Authorization _ token) with req.
  destruct (client_Do w req) as [resp|e]; [|done].
  case_bool_decide as Hst; [done|].
  destruct (json_Decode_branches w (Body resp)) as [bs|e]; [|done].
  case_bool_decide; [done|].
  destruct (sort_Slice w newer bs) as [|b rest]; [done|].
  intros [= <- <-]. split; [done|]. exists resp. split; [done|].
  by destruct (decide (StatusCode resp = 200)).
Qed.

Lemma getPubspec_Val w owner repo branch token c data :
  getPubspec w owner repo branch token = (c, Val data) →
  c = [{| req_url := pubspec_url owner repo branch;
          req_Authorization := "token " +:+ token |}]
  ∧ ∃ resp content,
      client_Do w {| req_url := pubspec_url owner repo branch;
                     req_Authorization := "token " +:+ token |} = Ok resp
      ∧ StatusCode resp = 200
      ∧ json_Decode_file w (Body resp) = Ok content
      ∧ base64_DecodeString w content = Ok data.
Proof.
  set (req := {| req_url := pubspec_url owner repo branch;
                 req_Authorization := "token " +:+ token |}).
  unfold getPubspec, http_NewRequest.
  destruct (url_Parse_ok w (pubspec_url owner repo branch)); [|done].
  change (set_Authorization _ token) with req.
  destruct (client_Do w req) as [resp|e]; [|done].
  case_bool_decide as Hst; [done|].
  destruct (json_Decode_file w (Body resp)) as [content|e] eqn:Hj; [|done].
  destruct (base64_DecodeString w content) as [d|e] eqn:Hb; [|done].
  intros [= <- <-]. split; [done|]. exists resp, content. split; [done|].
  split; [by destruct (decide (StatusCode resp = 200))|]. done.
Qed.

(** X14.  A goroutine of cmd/main.go merges a manifest only after two
    answers with status 200: the manifest is the parse of the base64
    decoding of the content fetched at the branch [getLatestBranch]
    returned, and the goroutine has sent exactly the two requests for the
    branches and for pubspec.yaml at that branch. *)
Theorem merged_manifest_comes_from_the_resolved_branch
    (w : World) (token : string) (total i : nat) (full owner repo : string)
    (ps : Pubspec) :
  t_outcome (fetch w token total i full owner repo) = Merged ps →
  ∃ branch resp1 resp2 content data,
    snd (getLatestBranch w owner repo token) = Val branch
    ∧ client_Do w {| req_url := branches_url owner repo;
                     req_Authorization := "token " +:+ token |} = Ok resp1
    ∧ StatusCode resp1 = 200
    ∧ client_Do w {| req_url := pubspec_url owner repo branch;
                     req_Authorization := "token " +:+ token |} = Ok resp2
    ∧ StatusCode resp2 = 200
    ∧ json_Decode_file w (Body resp2) = Ok content
    ∧ base64_DecodeString w content = Ok data
    ∧ ps = parsePubspec w data
    ∧ t_calls (fetch w token total i full owner repo) =
        [{| req_url := branches_url owner repo;
            req_Authorization := "token " +:+ token |};
         {| req_url := pubspec_url owner repo branch;
            req_Authorization := "token " +:+ token |}]
    ∧ t_log (fetch w token total i full owner repo) = [processing total i full].
Proof.
  unfold fetch.
  destruct (getLatestBranch w owner repo token) as [c1 [branch|e|]] eqn:H1; [|done..].
  destruct (getPubspec w owner repo branch token) as [c2 [data|e|]] eqn:H2; [|done..].
  cbn. intros [= <-].
  apply getLatestBranch_Val in H1 as (-> & resp1 & Hdo1 & Hst1).
  apply getPubspec_Val in H2 as (-> & resp2 & content & Hdo2 & Hst2 & Hj & Hb).
  exists branch, resp1, resp2, content, data. done.
Qed.

Lemma merged_manifest_sample :
  ∃ branch resp1 resp2 content data,
    snd (getLatestBranch (Samples.extended (@Samples.merge_Slice _)) "a" "b" "tok")
      = Val branch
    ∧ client_Do (Samples.extended (@Samples.merge_Slice _))
        {| req_url := branches_url "a" "b"; req_Authorization := "token " +:+ "tok" |}
      = Ok resp1
    ∧ StatusCode resp1 = 200
    ∧ client_Do (Samples.extended (@Samples.merge_Slice _))
        {| req_url := pubspec_url "a" "b" branch; req_Authorization := "token " +:+ "tok" |}
      = Ok resp2
    ∧ StatusCode resp2 = 200
    ∧ json_Decode_file (Samples.extended (@Samples.merge_Slice _)) (Body resp2) = Ok content
    ∧ base64_DecodeString (Samples.extended (@Samples.merge_Slice _)) content = Ok data
    ∧ parsePubspec (Samples.extended (@Samples.merge_Slice _)) "M1"
      = parsePubspec (Samples.extended (@Samples.merge_Slice _)) data
    ∧ t_calls (fetch (Samples.extended (@Samples.merge_Slice _)) "tok" 3 0 "a/b" "a" "b") =
        [{| req_url := branches_url "a" "b"; req_Authorization := "token " +:+ "tok" |};
         {| req_url := pubspec_url "a" "b" branch; req_Authorization := "token " +:+ "tok" |}]
    ∧ t_log (fetch (Samples.extended (@Samples.merge_Slice _)) "tok" 3 0 "a/b" "a" "b")
      = [processing 3 0 "a/b"].
Proof.
  apply (merged_manifest_comes_from_the_resolved_branch
           (Samples.extended (@Samples.merge_Slice _)) "tok" 3 0 "a/b" "a" "b"
           (parsePubspec (Samples.extended (@Samples.merge_Slice _)) "M1")).
  reflexivity.
Defined.

(** X15.  A repository that is skipped is always reported: the goroutine
    prints one line that names the repository and says why (invalid
    format, branch, fetch, read or parse failure), and a goroutine that
    merges prints no failure.  In cmd/main.go that line follows the
    "Processing" line every goroutine prints first. *)
Theorem skipped_repository_is_reported
    (we : World) (token : string) (total i : nat)
    (wm : Minimal.World) (line : string) :
  match t_outcome (task we token total i line) with
  | Skipped =>
      ∃ why e, t_log (task we token total i line) =
                 [processing total i line; why +:+ line +:+ e]
               ∧ (why = "Invalid repo format: " ∨ why = "Error getting branch for "
                  ∨ why = "Error fetching pubspec.yaml for ")
  | Merged _ | Crashed => t_log (task we token total i line) = [processing total i line]
  end
  ∧ match Minimal.t_outcome (Minimal.task wm line) with
    | Minimal.Skipped =>
        (Minimal.t_log (Minimal.task wm line) = ["invalid repo format: " +:+ line])
        ∨ ∃ why e, Minimal.t_log (Minimal.task wm line) =
                     ["[" +:+ line +:+ "] failed to " +:+ why +:+ ": " +:+ e]
                   ∧ (why = "fetch pubspec.yaml" ∨ why = "read pubspec.yaml"
                      ∨ why = "parse yaml")
    | Minimal.Merged _ | Minimal.Crashed => Minimal.t_log (Minimal.task wm line) = []
    end.
Proof.
  split.
  - unfold task.
    assert (∃ why e, t_log (invalid total i line) =
                       [processing total i line; why +:+ line +:+ e]
                     ∧ (why = "Invalid repo format: " ∨ why = "Error getting branch for "
                        ∨ why = "Error fetching pubspec.yaml for ")) as Hinv.
    { exists "Invalid repo format: ", "". split; [|by left].
      unfold invalid. cbn [t_log]. do 2 f_equal.
      change ("Invalid repo format: " +:+ line +:+ "")
        with ("Invalid repo format: " +:+ (line +:+ "")).
      f_equal. induction line as [|c l IH]; [done|].
      change (String c l +:+ "") with (String c (l +:+ "")). by rewrite <- IH. }
    destruct (strings_Split line slash) as [|owner [|repo [|? ?]]]; try exact Hinv.
    unfold fetch.
    destruct (getLatestBranch we owner repo token) as [c1 [branch|e|]]; cbn.
    + destruct (getPubspec we owner repo branch token) as [c2 [data|e|]]; cbn; try done.
      exists "Error fetching pubspec.yaml for ", (": " +:+ e). split; [done|]. by right; right.
    + exists "Error getting branch for ", (": " +:+ e). split; [done|]. by right; left.
    + done.
  - unfold Minimal.task, Minimal.splitRepo.
    destruct (strings_Split line slash) as [|owner [|repo [|? ?]]]; try (by left).
    unfold Minimal.fetch.
    destruct (Minimal.GetContents wm owner repo "pubspec.yaml") as [[content|]|e]; cbn.
    + destruct (Minimal.GetContent wm content) as [data|e]; cbn.
      * destruct (Minimal.extractDependencies wm data) as [deps|e]; cbn; [done|].
        right. exists "parse yaml", e. split; [done|]. by right; right.
      * right. exists "read pubspec.yaml", e. split; [done|]. by right; left.
    + done.
    + right. exists "fetch pubspec.yaml", e. split; [done|]. by left.
Qed.

End run_end.

(** ** Reading the token and the repository list *)
Section reading.

Import Minimal.

Lemma drop_bytes_app (p s : string) : drop_bytes (String.length p) (p +:+ s) = s.
Proof.
  induction p as [|c p IH]; [by destruct s|].
  change (String c p +:+ s) with (String c (p +:+ s)). exact IH.
Qed.

Lemma strings_TrimPrefix_app (p s : string) : strings_TrimPrefix (p +:+ s) p = s.
Proof. unfold strings_TrimPrefix. by rewrite strings_HasPrefix_app, drop_bytes_app. Qed.

Lemma scan_token_first w pre l post tok :
  Forall (λ x, strings_HasPrefix (strings_TrimSpace w x) token_prefix = false) pre →
  strings_TrimSpace w l = token_prefix +:+ tok →
  scan_token w (pre ++ l :: post) = Some tok.
Proof.
  intros Hpre Hl. induction Hpre as [|x pre Hx _ IH].
  - cbn [app scan_token]. fold token_prefix.
    by rewrite Hl, strings_HasPrefix_app, strings_TrimPrefix_app.
  - cbn [app scan_token]. fold token_prefix. by rewrite Hx.
Qed.

Lemma scan_token_Some w lines tok :
  scan_token w lines = Some tok →
  ∃ l, l ∈ lines ∧ strings_TrimSpace w l = token_prefix +:+ tok.
Proof.
  induction lines as [|x lines IH]; [done|]. cbn [scan_token]. fold token_prefix.
  destruct (strings_HasPrefix (strings_TrimSpace w x) token_prefix) eqn:Hx.
  - intros [= <-]. exists x. split; [left|].
    apply strings_HasPrefix_inv in Hx as [t Ht]. rewrite Ht.
    by rewrite strings_TrimPrefix_app.
  - intros H. destruct (IH H) as (l & Hin & Hl). exists l. split; [by right|done].
Qed.

Lemma scan_token_None w lines :
  scan_token w lines = None →
  Forall (λ x, strings_HasPrefix (strings_TrimSpace w x) token_prefix = false) lines.
Proof.
  induction lines as [|x lines IH]; [constructor|]. cbn [scan_token]. fold token_prefix.
  destruct (strings_HasPrefix (strings_TrimSpace w x) token_prefix) eqn:Hx; [done|].
  intros H. constructor; [done|by apply IH].
Qed.

(** X16.  [readEnvToken] returns what follows "GITHUB_TOKEN=" on the
    first line that starts with it once trimmed, exactly as it stands
    (quotes included); the lines after it are not looked at, and an error
    of the scanner further down the file is not reported. *)
Theorem readEnvToken_takes_the_first_token_line
    (w : World) (path : string) (pre post : list string) (l tok : string)
    (err : option error) :
  scan_lines w path = Ok (pre ++ l :: post, err) →
  Forall (λ x, strings_HasPrefix (strings_TrimSpace w x) "GITHUB_TOKEN=" = false) pre →
  strings_TrimSpace w l = "GITHUB_TOKEN=" +:+ tok →
  readEnvToken w path = Ok tok.
Proof.
  intros Hscan Hpre Hl. unfold readEnvToken. rewrite Hscan.
  by rewrite (scan_token_first w pre l post tok Hpre Hl).
Qed.

Lemma readEnvToken_sample : readEnvToken Samples.minimal ".env" = Ok "tok".
Proof.
  apply (readEnvToken_takes_the_first_token_line
           Samples.minimal ".env" ["# token"] [] "GITHUB_TOKEN=tok" "tok" None).
  - reflexivity.
  - repeat constructor.
  - reflexivity.
Defined.

(** X17.  A token [readEnvToken] returns is never made up: it is the rest
    of a line of the env file that starts with "GITHUB_TOKEN=".  When no
    line does, the result is the scanner's error if there is one and the
    empty token otherwise; when the file cannot be opened, it is that
    error. *)
Theorem readEnvToken_token_comes_from_the_file
    (w : World) (path : string) (lines : list string) (err : option error) :
  scan_lines w path = Ok (lines, err) →
  match readEnvToken w path with
  | Ok tok =>
      (∃ l, l ∈ lines ∧ strings_TrimSpace w l = "GITHUB_TOKEN=" +:+ tok)
      ∨ (tok = "" ∧ err = None
         ∧ Forall (λ x, strings_HasPrefix (strings_TrimSpace w x) "GITHUB_TOKEN=" = false)
             lines)
  | Err e =>
      err = Some e
      ∧ Forall (λ x, strings_HasPrefix (strings_TrimSpace w x) "GITHUB_TOKEN=" = false)
          lines
  end.
Proof.
  intros Hscan. unfold readEnvToken. rewrite Hscan.
  destruct (scan_token w lines) as [tok|] eqn:Ht.
  - left. by apply scan_token_Some.
  - apply scan_token_None in Ht. destruct err as [e|]; [done|]. by right.
Qed.

Lemma readEnvToken_from_file_sample :
  (∃ l, l ∈ ["# token"; "GITHUB_TOKEN=tok"]
        ∧ strings_TrimSpace Samples.minimal l = "GITHUB_TOKEN=" +:+ "tok")
  ∨ ("tok" = "" ∧ (None : option error) = None
     ∧ Forall (λ x, strings_HasPrefix (strings_TrimSpace Samples.minimal x)
                      "GITHUB_TOKEN=" = false)
         ["# token"; "GITHUB_TOKEN=tok"]).
Proof.
  exact (readEnvToken_token_comes_from_the_file
           Samples.minimal ".env" ["# token"; "GITHUB_TOKEN=tok"] None eq_refl).
Defined.

(** X18.  [readRepos] returns the trimmed lines of the file that are not
    empty, in the order of the file: no entry is empty, every entry is the
    trimmed form of a line, and there are at most as many entries as the
    file has newlines, plus one. *)
Theorem readRepos_keeps_the_non_empty_lines
    (w : World) (path data : string) :
  os_ReadFile w path = Ok data →
  ∃ repos,
    readRepos w path = Ok repos
    ∧ Forall (λ r, r ≠ "") repos
    ∧ repos `sublist_of` (strings_TrimSpace w <$> strings_Split data newline)
    ∧ (length repos ≤ Datatypes.S (count_byte newline data))%nat
    ∧ ∀ r, r ∈ repos ↔
           r ≠ "" ∧ ∃ line, line ∈ strings_Split data newline
                            ∧ r = strings_TrimSpace w line.
Proof.
  intros Hread. unfold readRepos. rewrite Hread. eexists. split; [done|].
  split; [|split; [|split]].
  - apply Forall_forall. intros r Hr. by apply list_elem_of_filter in Hr as [? _].
  - apply sublist_filter.
  - etrans; [apply length_filter|]. by rewrite length_fmap, strings_Split_length.
  - intros r. rewrite list_elem_of_filter, list_elem_of_fmap.
    split; intros [? (line & ? & ?)]; split; eauto.
Qed.

Lemma readRepos_sample :
  ∃ repos,
    readRepos Samples.minimal "repos.txt" = Ok repos
    ∧ Forall (λ r, r ≠ "") repos
    ∧ repos `sublist_of`
        (strings_TrimSpace Samples.minimal <$>
           strings_Split ("a/b" +:+ String newline ("e/f" +:+ String newline "c/d")) newline)
    ∧ (length repos ≤
         Datatypes.S (count_byte newline
                        ("a/b" +:+ String newline ("e/f" +:+ String newline "c/d"))))%nat
    ∧ ∀ r, r ∈ repos ↔
           r ≠ "" ∧ ∃ line,
             line ∈ strings_Split
                      ("a/b" +:+ String newline ("e/f" +:+ String newline "c/d")) newline
             ∧ r = strings_TrimSpace Samples.minimal line.
Proof.
  exact (readRepos_keeps_the_non_empty_lines Samples.minimal "repos.txt"
           ("a/b" +:+ String newline ("e/f" +:+ String newline "c/d")) eq_refl).
Defined.

End reading.

(** ** Edge runs *)
Section edge_runs.

(** X19.  With a repository file that holds no entry the two programs
    part ways: the minimal program calls nothing, writes the empty map to
    the output file and ends with status 0, whatever [--limit] is (0
    included); cmd/main.go prints that no repositories were found, writes
    no file and ends with status 0. *)
Theorem empty_repository_list
    (wm : Minimal.World) (fm : Minimal.Flags)
    (we : Extended.World) (fe : Extended.Flags) (token file : string)
    (order : list nat) :
  Minimal.help fm = false →
  Minimal.reposFile fm ≠ "" → Minimal.outFile fm ≠ "" → Minimal.envFile fm ≠ "" →
  Minimal.readEnvToken wm (Minimal.envFile fm) = Ok token → token ≠ "" →
  Minimal.readRepos wm (Minimal.reposFile fm) = Ok [] →
  0 ≤ Minimal.limit fm →
  Minimal.write_file wm (Minimal.outFile fm) ∅ = None →
  Extended.helpFlag fe = false →
  Extended.envPath fe ≠ "" → Extended.reposPath fe ≠ "" → Extended.outPath fe ≠ "" →
  Extended.load_token we (Extended.envPath fe) ≠ "" →
  Extended.os_ReadFile we (Extended.reposPath fe) = Ok file →
  Extended.fields_trimmed we file = [] →
  (Minimal.r_written (Minimal.main wm fm order) = Some (Minimal.outFile fm, ∅)
   ∧ Minimal.network_calls (Minimal.main wm fm order) = []
   ∧ Minimal.r_exit (Minimal.main wm fm order) = 0)
  ∧ Extended.main we fe order = Extended.returns ["No repositories found in the file."].
Proof.
  intros Hh Hr Ho He Htok Hne Hrepos Hlim Hw Hhe Hee Hre Hoe Htoke Hfile Hfields.
  split.
  - unfold Minimal.main. rewrite Hh.
    rewrite bool_decide_eq_false_2 by (intros [?|[?|?]]; done).
    rewrite Htok, bool_decide_eq_false_2 by done. rewrite Hrepos.
    rewrite bool_decide_eq_false_2 by lia.
    rewrite bool_decide_eq_false_2 by (by intros [_ ?]).
    cbn [Minimal.tasks fmap list_fmap existsb].
    change (Minimal.collect [] order) with
      (foldl (λ allDeps i, Minimal.locked [] i allDeps) ∅ order).
    assert (foldl (λ allDeps i, Minimal.locked [] i allDeps) ∅ order = ∅) as ->.
    { generalize (∅ : gmap string Z). induction order as [|i order IH]; intros m; [done|].
      cbn [foldl]. unfold Minimal.locked at 2. rewrite lookup_nil. apply IH. }
    rewrite Hw. done.
  - unfold Extended.main. rewrite Hhe.
    rewrite bool_decide_eq_false_2 by (intros [?|[?|?]]; done).
    rewrite bool_decide_eq_false_2 by done. rewrite Hfile, Hfields. done.
Qed.

Lemma empty_repository_list_sample :
  (Minimal.r_written (Minimal.main Samples_empty_minimal Samples.minimal_flags [])
     = Some ("stats.json", ∅)
   ∧ Minimal.network_calls (Minimal.main Samples_empty_minimal Samples.minimal_flags []) = []
   ∧ Minimal.r_exit (Minimal.main Samples_empty_minimal Samples.minimal_flags []) = 0)
  ∧ Extended.main Samples_empty Samples.flags []
    = Extended.returns ["No repositories found in the file."].
Proof.
  apply (empty_repository_list Samples_empty_minimal Samples.minimal_flags
           Samples_empty Samples.flags "tok" "" []).
  - reflexivity.
  - discriminate.
  - discriminate.
  - discriminate.
  - reflexivity.
  - discriminate.
  - reflexivity.
  - by vm_compute.
  - reflexivity.
  - reflexivity.
  - discriminate.
  - discriminate.
  - discriminate.
  - discriminate.
  - reflexivity.
  - reflexivity.
Defined.

(** X20.  When the report cannot be written, all the requests have been
    sent all the same and no report is recorded; the minimal program then
    ends with status 1, cmd/main.go prints "Failed to write JSON" and ends
    with status 0. *)
Theorem failed_write
    (wm : Minimal.World) (fm : Minimal.Flags) (token : string) (repos : list string)
    (em : error)
    (we : Extended.World) (fe : Extended.Flags) (file : string) (ee : error)
    (order : list nat) :
  Minimal.help fm = false →
  Minimal.reposFile fm ≠ "" → Minimal.outFile fm ≠ "" → Minimal.envFile fm ≠ "" →
  Minimal.readEnvToken wm (Minimal.envFile fm) = Ok token → token ≠ "" →
  Minimal.readRepos wm (Minimal.reposFile fm) = Ok repos →
  0 < Minimal.limit fm →
  existsb Minimal.is_Crashed (Minimal.tasks wm repos) = false →
  Minimal.write_file wm (Minimal.outFile fm)
    (Minimal.collect (Minimal.tasks wm repos) order) = Some em →
  Extended.helpFlag fe = false →
  Extended.envPath fe ≠ "" → Extended.reposPath fe ≠ "" → Extended.outPath fe ≠ "" →
  Extended.load_token we (Extended.envPath fe) ≠ "" →
  Extended.os_ReadFile we (Extended.reposPath fe) = Ok file →
  Extended.fields_trimmed we file ≠ [] →
  existsb Extended.is_Crashed
    (Extended.tasks we (Extended.load_token we (Extended.envPath fe))
       (Extended.fields_trimmed we file)) = false →
  Extended.write_json we (Extended.outPath fe)
    (Extended.finalStats
       (Extended.collect
          (Extended.tasks we (Extended.load_token we (Extended.envPath fe))
             (Extended.fields_trimmed we file)) order)
       (Extended.minUsage fe)) = Some ee →
  Minimal.main wm fm order =
    {| Minimal.r_output := ["Failed to write output: " +:+ em];
       Minimal.r_tasks := Minimal.tasks wm repos;
       Minimal.r_written := None; Minimal.r_exit := 1 |}
  ∧ Extended.main we fe order =
      {| Extended.r_stdout := ["Failed to write JSON: " +:+ ee];
         Extended.r_tasks :=
           Extended.tasks we (Extended.load_token we (Extended.envPath fe))
             (Extended.fields_trimmed we file);
         Extended.r_written := None; Extended.r_exit := 0 |}.
Proof.
  intros Hh Hr Ho He Htok Hne Hrepos Hlim Hcm Hwm Hhe Hee Hre Hoe Htoke Hfile Hfields Hce Hwe.
  split.
  - unfold Minimal.main. rewrite Hh.
    rewrite bool_decide_eq_false_2 by (intros [?|[?|?]]; done).
    rewrite Htok, bool_decide_eq_false_2 by done. rewrite Hrepos.
    rewrite bool_decide_eq_false_2 by lia.
    rewrite bool_decide_eq_false_2 by (intros [? _]; lia).
    by rewrite Hcm, Hwm.
  - unfold Extended.main. rewrite Hhe.
    rewrite bool_decide_eq_false_2 by (intros [?|[?|?]]; done).
    rewrite bool_decide_eq_false_2 by done. rewrite Hfile.
    rewrite bool_decide_eq_false_2 by (by intros ?%nil_length_inv).
    by rewrite Hce, Hwe.
Qed.

Lemma failed_write_sample :
  Minimal.r_exit (Minimal.main Samples_readonly_minimal Samples.minimal_flags [0; 1; 2]%nat) = 1
  ∧ Extended.r_exit (Extended.main Samples_readonly Samples.flags [0; 1; 2]%nat) = 0.
Proof.
  destruct (failed_write Samples_readonly_minimal Samples.minimal_flags "tok"
              ["a/b"; "e/f"; "c/d"] "open stats.json: permission denied"
              Samples_readonly Samples.flags "a/b e/f c/d"
              "open stats.json: permission denied" [0; 1; 2]%nat) as [Hm He].
  - reflexivity.
  - discriminate.
  - discriminate.
  - discriminate.
  - reflexivity.
  - discriminate.
  - reflexivity.
  - by vm_compute.
  - reflexivity.
  - reflexivity.
  - reflexivity.
  - discriminate.
  - discriminate.
  - discriminate.
  - discriminate.
  - reflexivity.
  - discriminate.
  - reflexivity.
  - reflexivity.
  - split; [by rewrite Hm|by rewrite He].
Defined.

End edge_runs.

(** ** Counters never go down *)
Section counters_grow.

Lemma Minimal_task_keys w line :
  ∃ ps, Minimal_keys_of (Minimal.t_outcome (Minimal.task w line)) = []
        ∨ Minimal_keys_of (Minimal.t_outcome (Minimal.task w line)) =
            range_keys (Minimal.Dependencies ps) ++ range_keys (Minimal.DevDependencies ps).
Proof.
  unfold Minimal.task. destruct (Minimal.splitRepo line) as [[owner repo] [|]];
    [|exists Minimal.zero_Pubspec; by left].
  unfold Minimal.fetch.
  destruct (Minimal.GetContents w owner repo "pubspec.yaml") as [[content|]|e];
    try (exists Minimal.zero_Pubspec; by left).
  destruct (Minimal.GetContent w content) as [data|e];
    [|exists Minimal.zero_Pubspec; by left].
  unfold Minimal.extractDependencies.
  destruct (Minimal.yaml_Unmarshal w data Minimal.zero_Pubspec) as [ps [e|]];
    [exists Minimal.zero_Pubspec; by left|].
  exists ps. by right.
Qed.

Lemma Minimal_task_occ w line p :
  (occ p (Minimal_keys_of (Minimal.t_outcome (Minimal.task w line))) ≤ 2)%nat.
Proof.
  destruct (Minimal_task_keys w line) as [ps [-> | ->]]; [cbn; lia|].
  rewrite occ_app, !occ_range_keys. repeat case_decide; lia.
Qed.

Lemma Minimal_declarations_le w repos p :
  (Minimal_declarations p (Minimal.tasks w repos) ≤ 2 * length repos)%nat.
Proof.
  unfold Minimal_declarations, Minimal.tasks.
  induction repos as [|l repos IH]; [done|].
  rewrite !fmap_cons, mjoin_cons, occ_app. cbn [length].
  pose proof (Minimal_task_occ w l p). lia.
Qed.



(** X22.  A merge never removes a package and never lowers a count: in
    cmd/main.go a counter that holds [v] holds [v] or [v + 1] after one
    more manifest is merged ([v + 1] exactly when the manifest declares
    the package in that section), as long as [v + 1] fits an int. *)
Theorem merge_never_lowers_a_counter
    (stats : Extended.counter) (ps : Extended.Pubspec) (s : Extended.section)
    (p : string) (v : Z) :
  Extended.counter_of s stats !! p = Some v →
  GoInt.in_range (v + 1) →
  Extended.counter_of s (Extended.merge stats ps) !! p =
    Some (if decide (p ∈ range_keys (Extended.section_of s ps)) then v + 1 else v).
Proof.
  intros Hv Hr. rewrite counter_of_merge, incr_all_lookup, Hv. cbn [default].
  rewrite occ_range_keys. case_decide; [|done].
  f_equal. by apply wrap_in_range.
Qed.

Lemma merge_never_lowers_sample :
  Extended.counter_of Extended.Runtime
    (Extended.merge
       {| Extended.deps := {[ "http" := 1 ]}; Extended.devDeps := ∅;
          Extended.overrides := ∅ |}
       (Extended.parsePubspec (Samples.extended (@Samples.merge_Slice _)) "M2"))
    !! "http"
  = Some (if decide ("http" ∈ range_keys
                       (Extended.section_of Extended.Runtime
                          (Extended.parsePubspec
                             (Samples.extended (@Samples.merge_Slice _)) "M2")))
          then 1 + 1 else 1).
Proof.
  apply (merge_never_lowers_a_counter
           {| Extended.deps := {[ "http" := 1 ]}; Extended.devDeps := ∅;
              Extended.overrides := ∅ |}
           (Extended.parsePubspec (Samples.extended (@Samples.merge_Slice _)) "M2")
           Extended.Runtime "http" 1).
  - reflexivity.
  - by vm_compute.
Defined.

End counters_grow.

(** ** The counters of both programs *)
Section counters_of_both_programs.

Lemma Minimal_collect_declarations w repos order p :
  order ≡ₚ seq 0 (length repos) →
  2 * Z.of_nat (length repos) ≤ GoInt.max_int →
  Minimal.collect (Minimal.tasks w repos) order !! p =
    (if decide (Minimal_declarations p (Minimal.tasks w repos) = O) then None
     else Some (Z.of_nat (Minimal_declarations p (Minimal.tasks w repos)))).
Proof.
  intros Hord Hlen.
  rewrite Minimal_collect_keys, incr_all_lookup, lookup_empty. cbn [default].
  assert (length (Minimal.tasks w repos) = length repos) as Hl.
  { unfold Minimal.tasks. apply length_fmap. }
  rewrite <- Hl in Hord.
  pose proof (omap_lookup_schedule (Minimal.tasks w repos) order Hord) as Hperm.
  set (ks := mjoin _).
  assert (occ p ks = Minimal_declarations p (Minimal.tasks w repos)) as Hocc.
  { unfold ks, Minimal_declarations. apply occ_perm. by rewrite Hperm. }
  pose proof (Minimal_declarations_le w repos p) as Hle.
  rewrite Hocc. case_decide as Hin; case_decide as H0.
  - rewrite <- Hocc in H0. apply occ_0 in H0. done.
  - rewrite wrap_in_range; [done|].
    unfold GoInt.in_range, GoInt.min_int, GoInt.max_int in *. lia.
  - done.
  - rewrite <- Hocc in H0. exfalso. apply H0. by apply occ_0.
Qed.

Lemma Minimal_collect_default w repos order p :
  order ≡ₚ seq 0 (length repos) →
  2 * Z.of_nat (length repos) ≤ GoInt.max_int →
  default 0 (Minimal.collect (Minimal.tasks w repos) order !! p) =
    Z.of_nat (Minimal_declarations p (Minimal.tasks w repos)).
Proof.
  intros Hord Hlen. rewrite Minimal_collect_declarations by done.
  case_decide as H0; [by rewrite H0|done].
Qed.

Lemma Minimal_declarations_insert w pre line post p :
  Minimal_declarations p (Minimal.tasks w (pre ++ line :: post)) =
  (Minimal_declarations p (Minimal.tasks w (pre ++ post))
   + occ p (Minimal_keys_of (Minimal.t_outcome (Minimal.task w line))))%nat.
Proof.
  unfold Minimal_declarations, Minimal.tasks.
  rewrite !fmap_app, !fmap_cons, !join_app, mjoin_cons, !occ_app. lia.
Qed.

(** A report the minimal program wrote holds what [collectDependencies]
    returned for the lines of the repository file. *)
Lemma Minimal_main_written w flags order out m :
  Minimal.r_written (Minimal.main w flags order) = Some (out, m) →
  ∃ repos, Minimal.readRepos w (Minimal.reposFile flags) = Ok repos
           ∧ out = Minimal.outFile flags
           ∧ m = Minimal.collect (Minimal.tasks w repos) order.
Proof.
  unfold Minimal.main. destruct (Minimal.help flags); [done|].
  case_bool_decide; [done|].
  destruct (Minimal.readEnvToken w _) as [token|e]; [|done].
  case_bool_decide; [done|].
  destruct (Minimal.readRepos w _) as [repos|e]; [|done].
  case_bool_decide; [done|]. case_bool_decide; [done|].
  destruct (existsb Minimal.is_Crashed _); [done|].
  destruct (Minimal.write_file w _ _); [done|].
  cbn. intros [= <- <-]. by exists repos.
Qed.

(** The goroutine of the minimal program for a line whose manifest is
    fetched and decoded. *)
Lemma Minimal_task_Merged w line owner repo rc data ps :
  Minimal.splitRepo line = (owner, repo, true) →
  Minimal.GetContents w owner repo "pubspec.yaml" = Ok (Some rc) →
  Minimal.GetContent w rc = Ok data →
  Minimal.yaml_Unmarshal w data Minimal.zero_Pubspec = (ps, None) →
  Minimal.task w line =
    {| Minimal.t_log := [];
       Minimal.t_calls := [{| Minimal.c_owner := owner; Minimal.c_repo := repo;
                              Minimal.c_path := "pubspec.yaml" |}];
       Minimal.t_outcome :=
         Minimal.Merged (range_keys (Minimal.Dependencies ps)
                           ++ range_keys (Minimal.DevDependencies ps)) |}.
Proof.
  intros Hs Hg Hc Hy. unfold Minimal.task. rewrite Hs.
  unfold Minimal.fetch. rewrite Hg, Hc.
  unfold Minimal.extractDependencies. by rewrite Hy.
Qed.




(** C10.  In the minimal program the goroutine of a repository whose
    manifest is fetched and decoded merges the keys of [dependencies]
    followed by those of [dev_dependencies] into the one map
    [collectDependencies] returns and [main] writes: compared with a run
    over the same file without that line, the count of every package is
    higher by one for each of the two sections declaring it, so by 2 for a
    package declared in both. *)
Theorem package_in_both_sections_adds_two_to_the_output
    (w : Minimal.World) (pre post : list string) (line owner repo data : string)
    (rc : Minimal.RepositoryContent) (ps : Minimal.Pubspec) (p : string)
    (order order' : list nat) :
  Minimal.splitRepo line = (owner, repo, true) →
  Minimal.GetContents w owner repo "pubspec.yaml" = Ok (Some rc) →
  Minimal.GetContent w rc = Ok data →
  Minimal.yaml_Unmarshal w data Minimal.zero_Pubspec = (ps, None) →
  p ∈ range_keys (Minimal.Dependencies ps) →
  p ∈ range_keys (Minimal.DevDependencies ps) →
  order ≡ₚ seq 0 (length (pre ++ line :: post)) →
  order' ≡ₚ seq 0 (length (pre ++ post)) →
  2 * Z.of_nat (length (pre ++ line :: post)) ≤ GoInt.max_int →
  Minimal.t_outcome (Minimal.task w line) =
    Minimal.Merged (range_keys (Minimal.Dependencies ps)
                      ++ range_keys (Minimal.DevDependencies ps))
  ∧ (∀ q, default 0 (Minimal.collect (Minimal.tasks w (pre ++ line :: post)) order !! q) =
          default 0 (Minimal.collect (Minimal.tasks w (pre ++ post)) order' !! q)
          + (if decide (q ∈ range_keys (Minimal.Dependencies ps)) then 1 else 0)
          + (if decide (q ∈ range_keys (Minimal.DevDependencies ps)) then 1 else 0))
  ∧ default 0 (Minimal.collect (Minimal.tasks w (pre ++ line :: post)) order !! p) =
      default 0 (Minimal.collect (Minimal.tasks w (pre ++ post)) order' !! p) + 2
  ∧ Minimal.collect (Minimal.tasks w [line]) [0%nat] !! p = Some 2
  ∧ (∀ flags out m,
       Minimal.readRepos w (Minimal.reposFile flags) = Ok (pre ++ line :: post) →
       Minimal.r_written (Minimal.main w flags order) = Some (out, m) →
       default 0 (m !! p) =
         default 0 (Minimal.collect (Minimal.tasks w (pre ++ post)) order' !! p) + 2).
Proof.
  intros Hs Hg Hc Hy Hd Hv Hord Hord' Hlen.
  pose proof (Minimal_task_Merged w line owner repo rc data ps Hs Hg Hc Hy) as Ht.
  assert (∀ q, default 0 (Minimal.collect (Minimal.tasks w (pre ++ line :: post)) order
                            !! q) =
               default 0 (Minimal.collect (Minimal.tasks w (pre ++ post)) order' !! q)
               + (if decide (q ∈ range_keys (Minimal.Dependencies ps)) then 1 else 0)
               + (if decide (q ∈ range_keys (Minimal.DevDependencies ps)) then 1 else 0))
    as Hall.
  { intros q. rewrite !Minimal_collect_default; try done.
    - rewrite Minimal_declarations_insert, Ht. cbn [Minimal.t_outcome Minimal_keys_of].
      rewrite occ_app, !occ_range_keys. repeat case_decide; lia.
    - rewrite length_app in *. cbn [length] in Hlen. lia. }
  assert (default 0 (Minimal.collect (Minimal.tasks w (pre ++ line :: post)) order !! p) =
          default 0 (Minimal.collect (Minimal.tasks w (pre ++ post)) order' !! p) + 2)
    as Hp.
  { rewrite Hall, !decide_True by done. lia. }
  split; [by rewrite Ht|]. split; [exact Hall|]. split; [exact Hp|]. split.
  - unfold Minimal.collect, Minimal.tasks. cbn [fmap list_fmap foldl].
    unfold Minimal.locked. cbn [lookup list_lookup]. rewrite Ht.
    cbn [Minimal.t_outcome Minimal.apply_outcome].
    rewrite incr_all_lookup, lookup_empty, occ_app, !occ_range_keys.
    rewrite decide_True by (apply elem_of_app; by left).
    rewrite !decide_True by done. done.
  - intros flags out m Hr Hw.
    apply Minimal_main_written in Hw as (repos & Hr' & _ & ->).
    rewrite Hr in Hr'. injection Hr' as <-. exact Hp.
Qed.

(** The sample file: a/b declares http, e/f has no manifest, and c/d
    declares http and test under [dependencies] and test again under
    [dev_dependencies].  The line c/d raises the count of test from 0 to 2
    and that of http from 1 to 2, in the map the run writes. *)
Lemma package_in_both_sections_sample :
  Minimal.r_written (Minimal.main Samples.minimal Samples.minimal_flags [2; 0; 1]%nat) =
    Some ("stats.json",
          Minimal.collect (Minimal.tasks Samples.minimal ["a/b"; "e/f"; "c/d"])
            [2; 0; 1]%nat)
  ∧ default 0 (Minimal.collect (Minimal.tasks Samples.minimal ["a/b"; "e/f"; "c/d"])
                 [2; 0; 1]%nat !! "test") = 0 + 2
  ∧ default 0 (Minimal.collect (Minimal.tasks Samples.minimal ["a/b"; "e/f"; "c/d"])
                 [2; 0; 1]%nat !! "http") = 1 + 1 + 0.
Proof.
  destruct (package_in_both_sections_adds_two_to_the_output
              Samples.minimal ["a/b"; "e/f"] [] "c/d" "c" "d" "M2"
              {| Minimal.Encoding := "base64"; Minimal.Content := "M2" |}
              {| Minimal.Dependencies := Samples.manifest ["http"; "test"];
                 Minimal.DevDependencies := Samples.manifest ["test"] |}
              "test" [2; 0; 1]%nat [1; 0]%nat)
    as (_ & Hall & Hp & _ & Hmain).
  - reflexivity.
  - reflexivity.
  - reflexivity.
  - reflexivity.
  - apply (bool_decide_unpack _). by vm_compute.
  - apply (bool_decide_unpack _). by vm_compute.
  - apply (Permutation_cons_append [0; 1]%nat 2%nat).
  - apply perm_swap.
  - by vm_compute.
  - cbn [app] in Hp, Hall. split; [by vm_compute|]. split.
    + rewrite Hp. by vm_compute.
    + rewrite (Hall "http"). by vm_compute.
Defined.

End counters_of_both_programs.

(** ** Absent and null sections *)
Section absent_sections.








End absent_sections.
